(** * Validation metrics and threshold sweep (validate.py, utils/plots.py)

    A shallow embedding of [validation_metrics] (src/validate.py) and of
    [plot_results_above_threshold] (src/utils/plots.py), with the part of
    numpy and of scikit-learn's [sklearn.metrics] that the two functions call.

    Conventions of the embedding.
    - Integer arrays (labels, predictions, counts) are lists of [Z]. numpy
      holds counts as int64; a count is bounded by the length of an array in
      memory, so no count computed here reaches 2^62 and the wrap-around of
      int64 is never exercised.
    - Probabilities and thresholds are binary64 numbers, [spec_float] with
      precision 53 and maximal exponent 1024, and every operation on them
      ([np.arange], [>], [==]) is the IEEE operation of the Standard Library's
      [SpecFloat].
    - A value obtained by dividing two integer counts is kept as the exact
      quotient, reduced to lowest terms ([scalar]). The binary64 number the
      program holds is the correctly rounded image of that quotient; rounding
      is monotone and sends only 0 to 0 and only 1 to 1 on quotients of
      counts. Division by zero follows numpy: 0/0 is NaN, x/0 is an infinity.
    - Two values of scikit-learn are not single divisions of counts: the
      F-score, evaluated from the doubles of precision and recall, and the
      area under the ROC curve, a sum of trapezoids. [Sk.f1_score] and
      [Sk.roc_auc_score] keep the exact quotient these evaluations
      approximate; the double the program holds can differ from the rounded
      quotient in the last place. Of these two values the theorems state
      only what rounding leaves alone: that the value is a finite number,
      whether it is 0, and which exception is raised; the reports written
      out in examples hold an area of exactly 0 or 1. The evaluation of the
      F-score in binary64 is given apart ([f1_score_binary64]).
    - A Python exception is a value of [exn]; a computation that may raise
      has type [res A].
    - The calls into matplotlib are recorded as the list of the series they
      are given ([plot_call]).
    - numpy and scikit-learn are not part of the repository: the functions
      of theirs that the source calls are written here after the libraries'
      documented behaviour, scikit-learn in the release current at the date
      of the source (1.1, July 2022). *)

From Stdlib Require Import String ZArith QArith Qreduction Qabs Bool Lia List Sorted.
From Stdlib Require Import Floats.SpecFloat.
Import ListNotations.

Local Open Scope Z_scope.

(** ** Exceptions and the error monad *)

Inductive exn : Type :=
| ValueError_inconsistent_length   (* check_consistent_length *)
| ValueError_unpack (expected got : nat) (* tuple unpacking of the wrong size *)
| ValueError_only_one_class        (* roc_auc_score: one class in y_true *)
| ValueError_multiclass            (* a binary-only metric on > 2 classes *)
| ValueError_pos_label             (* pos_label=1 is not a present label *)
| ValueError_empty_array           (* check_array: 0 samples *)
| ValueError_not_finite            (* check_array: NaN or infinity *)
| ValueError_arange                (* np.arange: length is not a number *)
| ZeroDivisionError                (* Python's own int / int *)
| KeyError (k : string)
| TypeError_not_callable
| UnboundLocalError (v : string).

Definition res (A : Type) : Type := (exn + A)%type.

Definition ret {A} (x : A) : res A := inr x.
Definition raise {A} (e : exn) : res A := inl e.
Definition bind {A B} (c : res A) (k : A -> res B) : res B :=
  match c with
  | inl e => inl e
  | inr x => k x
  end.

Notation "x <- c ;; k" := (bind c (fun x => k))
  (at level 61, c at next level, right associativity).
Notation "' p <- c ;; k" := (bind c (fun p => k))
  (at level 61, p pattern, c at next level, right associativity).
Notation "c ;;; k" := (bind c (fun _ => k))
  (at level 61, right associativity).

(** Monadic left fold: a [for] loop whose body may raise. *)
Fixpoint foldM {S X} (body : S -> X -> res S) (xs : list X) (s : S) : res S :=
  match xs with
  | [] => ret s
  | x :: rest => s' <- body s x ;; foldM body rest s'
  end.

(** ** binary64 *)

Definition float64 : Type := spec_float.

Module F64.
Definition prec : Z := 53.
Definition emax : Z := 1024.

Definition add : float64 -> float64 -> float64 := SFadd prec emax.
Definition sub : float64 -> float64 -> float64 := SFsub prec emax.
Definition mul : float64 -> float64 -> float64 := SFmul prec emax.
Definition div : float64 -> float64 -> float64 := SFdiv prec emax.
Definition ltb : float64 -> float64 -> bool := SFltb.
Definition leb : float64 -> float64 -> bool := SFleb.
Definition eqb : float64 -> float64 -> bool := SFeqb.
Definition gtb (x y : float64) : bool :=
  match SFcompare x y with
  | Some Gt => true
  | _ => false
  end.

(** Conversion of an integer (C's (double)i). *)
Definition of_Z (z : Z) : float64 := binary_normalize prec emax z 0 false.

(** The binary64 number a decimal literal n/d denotes: the quotient
    rounded to nearest, as the Python parser rounds the literal. *)
Definition of_ratio (n d : Z) : float64 := div (of_Z n) (of_Z d).

Definition is_finite (x : float64) : bool :=
  match x with
  | S754_zero _ | S754_finite _ _ _ => true
  | S754_infinity _ | S754_nan => false
  end.

(** The exact rational a finite number denotes. *)
Definition to_Q (x : float64) : Q :=
  match x with
  | S754_finite s m e =>
      let mag := match e with
                 | Z0 => inject_Z (Zpos m)
                 | Zpos p => inject_Z (Zpos m * 2 ^ Zpos p)
                 | Zneg p => Qmake (Zpos m) (2 ^ p)%positive
                 end in
      if s then Qopp mag else mag
  | _ => 0%Q
  end.

(** [ceil], as C's ceil followed by the conversion to an integer; [None]
    where the result is not a number. *)
Definition ceil (x : float64) : option Z :=
  match x with
  | S754_zero _ => Some 0
  | S754_finite s m e =>
      let z := if s then Zneg m else Zpos m in
      Some (match e with
            | Zneg p => - ((- z) / 2 ^ Zpos p)
            | _ => z * 2 ^ e
            end)
  | _ => None
  end.
End F64.

(** The literals of the source. *)
Definition lit_0_01 : float64 := F64.of_ratio 1 100.
Definition lit_1_00 : float64 := F64.of_ratio 100 100.
Definition lit_0_5 : float64 := F64.of_ratio 5 10.
Definition lit_0_99 : float64 := F64.of_ratio 99 100.

(** ** Scalars: quotients of counts *)

Inductive scalar : Type :=
| Finite (q : Q)     (* the exact quotient, in lowest terms *)
| Inf (neg : bool)
| Nan.

Definition scalar_zero : scalar := Finite 0.
Definition scalar_one : scalar := Finite 1.

(** [x != 0] on a double: NaN and the infinities differ from 0. *)
Definition scalar_nonzero (x : scalar) : bool :=
  match x with
  | Finite q => negb (Qnum q =? 0)
  | Inf _ | Nan => true
  end.

(** [x <= y] on doubles: false as soon as one side is NaN. *)
Definition scalar_le (x y : scalar) : Prop :=
  match x, y with
  | Finite p, Finite q => (p <= q)%Q
  | Inf true, (Finite _ | Inf _) => True
  | Finite _, Inf false => True
  | Inf false, Inf false => True
  | _, _ => False
  end.

(** ** numpy *)

Module Np.

(** [np.arange(start, stop, step)] on doubles. The length is
    ceil((stop - start) / step); element 0 is start, element 1 is
    start + step, and element i is start + i * delta where delta is
    element 1 minus element 0. *)
Definition arange (start stop step : float64) : res (list float64) :=
  match F64.ceil (F64.div (F64.sub stop start) step) with
  | None => raise ValueError_arange
  | Some len =>
      let first := start in
      let second := F64.add start step in
      let delta := F64.sub second first in
      ret (map (fun i : nat =>
                  match i with
                  | O => first
                  | S O => second
                  | _ => F64.add start (F64.mul (F64.of_Z (Z.of_nat i)) delta)
                  end)
               (seq 0 (Z.to_nat len)))
  end.

(** [a / b] on int64 scalars (true_divide): the result is a double and a
    zero divisor gives NaN or an infinity (with a RuntimeWarning), never
    an exception. *)
Definition true_divide (a b : Z) : scalar :=
  if b =? 0 then (if a =? 0 then Nan else Inf (a <? 0))
  else Finite (Qred (inject_Z a / inject_Z b)).

(** [np.unique]: the distinct values, in increasing order. *)
Fixpoint insert_unique (x : Z) (l : list Z) : list Z :=
  match l with
  | [] => [x]
  | y :: rest =>
      match x ?= y with
      | Lt => x :: l
      | Eq => l
      | Gt => y :: insert_unique x rest
      end
  end.

Definition unique (l : list Z) : list Z := fold_right insert_unique [] l.

(** [np.zeros(n)]. *)
Definition zeros (n : nat) : list scalar := repeat scalar_zero n.

(** [a[i] = v] for an index inside the array. *)
Fixpoint set_item {A} (a : list A) (i : nat) (v : A) : list A :=
  match a, i with
  | [], _ => []
  | _ :: rest, O => v :: rest
  | x :: rest, S i' => x :: set_item rest i' v
  end.

(** [a[mask]] for a boolean mask as long as the array. *)
Fixpoint select {A} (a : list A) (mask : list bool) : list A :=
  match a, mask with
  | x :: a', b :: mask' => if b then x :: select a' mask' else select a' mask'
  | _, _ => []
  end.

(** [sum] of an integer array. *)
Definition sum (l : list Z) : Z := fold_left Z.add l 0.

End Np.

(** ** sklearn.metrics *)

Module Sk.

Inductive target_type : Type := binary | multiclass.

(** [type_of_target] of a 1-d integer array. *)
Definition type_of_target (y : list Z) : target_type :=
  if (2 <? length (Np.unique y))%nat then multiclass else binary.

Definition check_consistent_length {A B} (a : list A) (b : list B) : res unit :=
  if (length a =? length b)%nat then ret tt
  else raise ValueError_inconsistent_length.

Definition unique_labels (y_true y_pred : list Z) : list Z :=
  Np.unique (y_true ++ y_pred).

(** [_check_targets]: both arrays have one length; two binary targets
    whose union has more than two values are multiclass. *)
Definition _check_targets (y_true y_pred : list Z) : res target_type :=
  check_consistent_length y_true y_pred ;;;
  match type_of_target y_true, type_of_target y_pred with
  | binary, binary =>
      if (2 <? length (unique_labels y_true y_pred))%nat
      then ret multiclass else ret binary
  | _, _ => ret multiclass
  end.

(** Number of samples whose true label is [a] and predicted label [b]. *)
Definition count_pairs (y_true y_pred : list Z) (a b : Z) : Z :=
  Z.of_nat (length (filter (fun tp : Z * Z => (fst tp =? a) && (snd tp =? b))
                           (combine y_true y_pred))).

(** [confusion_matrix(y_true, y_pred)] with [labels=None]: one row and one
    column per value present in either array, in increasing order; entry
    (i, j) counts the samples of true label i predicted j. *)
Definition confusion_matrix (y_true y_pred : list Z) : res (list (list Z)) :=
  _check_targets y_true y_pred ;;;
  let labels := unique_labels y_true y_pred in
  ret (map (fun a => map (fun b => count_pairs y_true y_pred a b) labels) labels).

(** [ndarray.ravel] of a matrix. *)
Definition ravel (cm : list (list Z)) : list Z := concat cm.

(** [accuracy_score]: the mean of [y_true == y_pred]. *)
Definition accuracy_score (y_true y_pred : list Z) : res scalar :=
  _check_targets y_true y_pred ;;;
  let hits := filter (fun tp : Z * Z => fst tp =? snd tp) (combine y_true y_pred) in
  ret (Np.true_divide (Z.of_nat (length hits)) (Z.of_nat (length y_true))).

(** The [zero_division] parameter. *)
Inductive zero_division : Type := ZD_warn | ZD_0 | ZD_1.

Definition zero_division_value (zd : zero_division) : scalar :=
  match zd with
  | ZD_warn | ZD_0 => scalar_zero
  | ZD_1 => scalar_one
  end.

(** [_prf_divide]: the quotient, with [zero_division] in place of a
    division by zero. *)
Definition _prf_divide (num den : Z) (zd : zero_division) : scalar :=
  if den =? 0 then zero_division_value zd else Np.true_divide num den.

(** [_check_set_wise_labels] with [average='binary'], [pos_label=1]. *)
Definition _check_set_wise_labels (y_true y_pred : list Z) : res unit :=
  y_type <- _check_targets y_true y_pred ;;
  let present_labels := unique_labels y_true y_pred in
  match y_type with
  | binary =>
      if negb (existsb (Z.eqb 1) present_labels)
         && (2 <=? length present_labels)%nat
      then raise ValueError_pos_label
      else ret tt
  | multiclass => raise ValueError_multiclass
  end.

(** The counts [multilabel_confusion_matrix] gives for the label 1. *)
Definition tp_sum (y_true y_pred : list Z) : Z := count_pairs y_true y_pred 1 1.
Definition pred_sum (y_pred : list Z) : Z :=
  Z.of_nat (length (filter (Z.eqb 1) y_pred)).
Definition true_sum (y_true : list Z) : Z :=
  Z.of_nat (length (filter (Z.eqb 1) y_true)).

Definition precision_score (y_true y_pred : list Z) (zd : zero_division)
  : res scalar :=
  _check_set_wise_labels y_true y_pred ;;;
  ret (_prf_divide (tp_sum y_true y_pred) (pred_sum y_pred) zd).

Definition recall_score (y_true y_pred : list Z) (zd : zero_division)
  : res scalar :=
  _check_set_wise_labels y_true y_pred ;;;
  ret (_prf_divide (tp_sum y_true y_pred) (true_sum y_true) zd).

(** [f1_score]: the exact quotient 2 tp / (true_sum + pred_sum), and
    [zero_division] where that is 0/0. Release 1.1 evaluates the harmonic
    mean 2 P R / (P + R) on the doubles P and R of precision and recall; the
    quotient here is the number that evaluation approximates, it is 0
    exactly when the double is 0, and the double can differ from the rounded
    quotient in the last place (see [f1_score_binary64]). *)
Definition f1_score (y_true y_pred : list Z) (zd : zero_division)
  : res scalar :=
  _check_set_wise_labels y_true y_pred ;;;
  ret (_prf_divide (2 * tp_sum y_true y_pred)
                   (true_sum y_true + pred_sum y_pred) zd).

(** [check_array] on a 1-d array of scores: at least one sample, and
    every value finite. *)
Definition check_array_scores (y : list float64) : res unit :=
  match y with
  | [] => raise ValueError_empty_array
  | _ => if forallb F64.is_finite y then ret tt
         else raise ValueError_not_finite
  end.

Definition check_array_labels (y : list Z) : res unit :=
  match y with
  | [] => raise ValueError_empty_array
  | _ => ret tt
  end.

(** Twice the Mann-Whitney statistic of the scores of the positive
    samples against those of the negative ones: 2 for each pair ranked
    correctly, 1 for each tie. *)
Definition pair_score (sp sn : float64) : Z :=
  match SFcompare sp sn with
  | Some Gt => 2
  | Some Eq => 1
  | _ => 0
  end.

Definition mann_whitney2 (pos neg : list float64) : Z :=
  Np.sum (map (fun sp => Np.sum (map (pair_score sp) neg)) pos).

Definition scores_of (c : Z) (y_true : list Z) (y_score : list float64)
  : list float64 :=
  map snd (filter (fun ts : Z * float64 => fst ts =? c) (combine y_true y_score)).

(** [_binary_roc_auc_score]: the exact area under the ROC curve, which is
    the Mann-Whitney statistic over the number of (positive, negative)
    pairs; the larger of the two labels is the positive class. The library
    sums the trapezoids under the curve in binary64, so the double it
    returns can differ from the rounded quotient in the last place; the
    exception raised on a single class does not depend on that. *)
Definition _binary_roc_auc_score (y_true : list Z) (y_score : list float64)
  : res scalar :=
  match Np.unique y_true with
  | [c0; c1] =>
      check_consistent_length y_true y_score ;;;
      let pos := scores_of c1 y_true y_score in
      let neg := scores_of c0 y_true y_score in
      ret (Np.true_divide (mann_whitney2 pos neg)
             (2 * (Z.of_nat (length pos) * Z.of_nat (length neg))))
  | _ => raise ValueError_only_one_class
  end.

(** [roc_auc_score(y_true, y_score)] with its default parameters. *)
Definition roc_auc_score (y_true : list Z) (y_score : list float64)
  : res scalar :=
  let y_type := type_of_target y_true in
  check_array_labels y_true ;;;
  check_array_scores y_score ;;;
  match y_type with
  | multiclass => raise ValueError_multiclass
  | binary => _binary_roc_auc_score y_true y_score
  end.

End Sk.

(** ** validate.py *)

Module Validate.

(** A Python dict with string keys, in insertion order. *)
Definition dict (V : Type) : Type := list (string * V).

Fixpoint lookup {V} (k : string) (d : dict V) : option V :=
  match d with
  | [] => None
  | (k', v) :: rest => if String.eqb k k' then Some v else lookup k rest
  end.

(** [tn, fp, fn, tp = ...]: the right-hand side must have four items. *)
Definition unpack4 (l : list Z) : res (Z * Z * Z * Z) :=
  match l with
  | [a; b; c; d] => ret (a, b, c, d)
  | _ => raise (ValueError_unpack 4 (length l))
  end.

(** Line 35. *)
Definition confusion_counts (preds labels : list Z) : res (Z * Z * Z * Z) :=
  cm <- Sk.confusion_matrix labels preds ;;
  unpack4 (Sk.ravel cm).

(** Lines 37 to 41. *)
Definition accuracy_of (tn fp fn tp : Z) : scalar :=
  Np.true_divide (tp + tn) (tp + fp + tn + fn).
Definition precision_of (tn fp fn tp : Z) : scalar :=
  Np.true_divide tp (tp + fp).
Definition sensitivity_of (tn fp fn tp : Z) : scalar :=
  Np.true_divide tp (tp + fn).
Definition specificity_of (tn fp fn tp : Z) : scalar :=
  Np.true_divide tn (fp + tn).
Definition f1_of (tn fp fn tp : Z) : scalar :=
  Np.true_divide (2 * tp) (2 * tp + fp + fn).

Definition validation_metrics
  (preds : list Z) (probs : list float64) (labels : list Z)
  : res (dict scalar) :=
  '(tn, fp, fn, tp) <- confusion_counts preds labels ;;
  let accuracy := accuracy_of tn fp fn tp in
  let precision := precision_of tn fp fn tp in
  let sensitivity := sensitivity_of tn fp fn tp in
  let specificity := specificity_of tn fp fn tp in
  let f1 := f1_of tn fp fn tp in
  auc <- Sk.roc_auc_score labels probs ;;
  ret [ ("Accuracy", accuracy);
        ("F1 Score", f1);
        ("Precision", precision);
        ("Sensitivity", sensitivity);
        ("Specificity", specificity);
        ("AUC", auc) ]%string.

End Validate.

(** ** utils/plots.py *)

Module Plots.
Import Validate.

(** The values of the [metrics] dict: the empty string, a scorer, or a
    scorer that accepts [zero_division]. *)
Inductive entry : Type :=
| Str (s : string)
| Scorer (f : list Z -> list Z -> res scalar)
| ScorerZD (f : list Z -> list Z -> Sk.zero_division -> res scalar).

Definition metrics : dict entry :=
  [ ("Percentage of Samples", Str "");
    ("Accuracy", Scorer Sk.accuracy_score);
    ("Precision", ScorerZD Sk.precision_score);
    ("Recall", ScorerZD Sk.recall_score);
    ("F1 Score", ScorerZD Sk.f1_score) ]%string.

Definition keys {V} (d : dict V) : list string := map fst d.

Definition getitem {V} (d : dict V) (k : string) : res V :=
  match lookup k d with
  | Some v => ret v
  | None => raise (KeyError k)
  end.

(** [f(labels, preds)] and [f(labels, preds, zero_division=zd)]. *)
Definition call2 (f : entry) (labels preds : list Z) : res scalar :=
  match f with
  | Str _ => raise TypeError_not_callable
  | Scorer g => g labels preds
  | ScorerZD g => g labels preds Sk.ZD_warn
  end.

Definition call3 (f : entry) (labels preds : list Z) (zd : Sk.zero_division)
  : res scalar :=
  match f with
  | ScorerZD g => g labels preds zd
  | Str _ | Scorer _ => raise TypeError_not_callable
  end.

(** Line 139: [(probs > thr).astype(int)]. *)
Definition above (probs : list float64) (thr : float64) : list Z :=
  map (fun p => if F64.gtb p thr then 1 else 0) probs.

(** [sum(preds)/len(probs)]: the builtin [sum] of an empty array is the
    Python integer 0, whose division by zero raises; otherwise the sum is
    an int64 and the division is numpy's. *)
Definition sum_over_len (preds : list Z) (n : nat) : res scalar :=
  match preds with
  | [] => if (n =? 0)%nat then raise ZeroDivisionError
          else ret (Np.true_divide 0 (Z.of_nat n))
  | _ => ret (Np.true_divide (Np.sum preds) (Z.of_nat n))
  end.

(** Lines 139 to 145: the value stored at one threshold. *)
Definition value_at (key : string) (probs : list float64) (labels : list Z)
  (thr : float64) : res scalar :=
  let preds := above probs thr in
  if (key =? "Percentage of Samples")%string then
    sum_over_len preds (length probs)
  else if (key =? "Accuracy")%string then
    f <- getitem metrics key ;; call2 f labels preds
  else
    f <- getitem metrics key ;; call3 f labels preds Sk.ZD_0.

Definition enumerate {A} (l : list A) : list (nat * A) :=
  combine (seq 0 (length l)) l.

(** Lines 138 to 148: one iteration of the inner loop, on the array
    [above_threshold] and the variable [result] ([None] while it is
    unbound). *)
Definition body (key : string) (probs : list float64) (labels : list Z)
  (st : list scalar * option scalar) (it : nat * float64)
  : res (list scalar * option scalar) :=
  let '(above_threshold, result) := st in
  let '(i, thr) := it in
  v <- value_at key probs labels thr ;;
  let above_threshold := Np.set_item above_threshold i v in
  let result := if F64.eqb thr lit_0_5
                then Some (nth i above_threshold Nan) else result in
  ret (above_threshold, result).

(** Lines 136 to 148: the inner loop for one key. *)
Definition sweep (key : string) (threshold probs : list float64)
  (labels : list Z) (result : option scalar)
  : res (list scalar * option scalar) :=
  foldM (body key probs labels) (enumerate threshold)
        (Np.zeros (length threshold), result).

(** What [plt.plot] receives for one key: the two masked arrays and the
    value the legend shows. *)
Record plot_call : Type := {
  plot_key : string;
  plot_x : list float64;
  plot_y : list scalar;
  plot_result : scalar
}.

(** Lines 136 to 159: the body of the outer loop. *)
Definition plot_key_series (key : string) (threshold probs : list float64)
  (labels : list Z) (result : option scalar)
  : res (plot_call * option scalar) :=
  '(above_threshold, result) <- sweep key threshold probs labels result ;;
  let nonzero := map scalar_nonzero above_threshold in
  match result with
  | None => raise (UnboundLocalError "result")
  | Some r =>
      ret ({| plot_key := key;
              plot_x := Np.select threshold nonzero;
              plot_y := Np.select above_threshold nonzero;
              plot_result := r |}, result)
  end.

(** Lines 135 to 159: one iteration of the outer loop, on the plots made
    so far and the variable [result]. *)
Definition outer_body (threshold probs : list float64) (labels : list Z)
  (st : list plot_call * option scalar) (key : string)
  : res (list plot_call * option scalar) :=
  let '(plots, result) := st in
  '(p, result) <- plot_key_series key threshold probs labels result ;;
  ret (plots ++ [p], result).

Definition plot_results_above_threshold
  (probs : list float64) (labels : list Z) : res (list plot_call) :=
  threshold <- Np.arange lit_0_01 lit_1_00 lit_0_01 ;;
  '(plots, _) <-
    foldM (outer_body threshold probs labels) (keys metrics) ([], None) ;;
  ret plots.

End Plots.

(** ** The data model's input constraints *)

Definition is_label (z : Z) : bool := (z =? 0) || (z =? 1).

Definition is_probability (p : float64) : bool :=
  F64.leb (S754_zero false) p && F64.leb p lit_1_00.

(** PredictionSet: three sequences of one length N >= 1, labels in {0,1},
    probabilities in [0,1]. *)
Definition valid_input (preds : list Z) (probs : list float64) (labels : list Z)
  : bool :=
  (length preds =? length labels)%nat && (length probs =? length labels)%nat
  && (1 <=? length labels)%nat
  && forallb is_label preds && forallb is_label labels
  && forallb is_probability probs.

(** The input of the sweep: probabilities and true labels. *)
Definition valid_sweep_input (probs : list float64) (labels : list Z) : bool :=
  (length probs =? length labels)%nat && (1 <=? length labels)%nat
  && forallb is_label labels && forallb is_probability probs.

(** The 99 thresholds of line 133, as [np.arange] computes them. *)
Definition threshold : list float64 :=
  Eval vm_compute in
    match Np.arange lit_0_01 lit_1_00 lit_0_01 with
    | inr l => l
    | inl _ => []
    end.

(** Strict order of two doubles, and a list in strictly increasing order. *)
Definition ltb_rel (a b : float64) : Prop := F64.ltb a b = true.

Fixpoint sortedb (l : list float64) : bool :=
  match l with
  | a :: (b :: _) as rest => F64.ltb a b && sortedb rest
  | _ => true
  end.

(** Each threshold is finite and is (i+1)/100 up to the rounding of
    binary64: the distance is at most 2^-53. *)
Definition near_hundredth (i : nat) (x : float64) : bool :=
  F64.is_finite x
  && Qle_bool (Qabs (F64.to_Q x - Qmake (Z.of_nat i + 1) 100)) (Qmake 1 (2 ^ 53)).

(** The inner loop of the sweep, read as a whole: the values in
    threshold order, and the last value stored at a threshold equal to
    0.5. *)
Fixpoint mapM {X Y} (g : X -> res Y) (xs : list X) : res (list Y) :=
  match xs with
  | [] => ret []
  | x :: rest => y <- g x ;; ys <- mapM g rest ;; ret (y :: ys)
  end.

Fixpoint result_after (thrs : list float64) (vals : list scalar)
  (result : option scalar) : option scalar :=
  match thrs, vals with
  | thr :: thrs', v :: vals' =>
      result_after thrs' vals' (if F64.eqb thr lit_0_5 then Some v else result)
  | _, _ => result
  end.

Definition is_Finite (x : scalar) : Prop := exists q, x = Finite q.

(** The value the sweep records at 0.5 for a key (the legend of that key's
    plot), and the entry of the report of [validation_metrics] on the labels
    predicted at 0.5. *)
Definition recorded_at_half (key : string) (probs : list float64)
  (labels : list Z) : option scalar :=
  match Plots.plot_results_above_threshold probs labels with
  | inr plots =>
      option_map Plots.plot_result
        (find (fun p => String.eqb (Plots.plot_key p) key) plots)
  | inl _ => None
  end.

Definition calculator_at_half (name : string) (probs : list float64)
  (labels : list Z) : option scalar :=
  match Validate.validation_metrics (Plots.above probs lit_0_5) probs labels with
  | inr report => Validate.lookup name report
  | inl _ => None
  end.

(** ** The F-score in binary64

    Release 1.1 of scikit-learn does not divide two counts to obtain the
    F-score. [_prf_divide] divides counts for precision and for recall, each
    a double, 0.0 where the denominator is 0 ([zero_division=0]), and
    [precision_recall_fscore_support] evaluates on these doubles

      denom = beta2 * precision + recall
      denom[denom == 0.0] = 1
      f_score = (1 + beta2) * precision * recall / denom

    with beta2 = 1.0. Every operation rounds. Line 41 of validate.py
    divides 2 tp by 2 tp + fp + fn, one rounding. The two evaluations
    follow, on the counts. *)
Definition prf_divide_binary64 (numerator denominator : Z) : float64 :=
  if denominator =? 0 then S754_zero false
  else F64.div (F64.of_Z numerator) (F64.of_Z denominator).

Definition f1_score_binary64 (tp_sum pred_sum true_sum : Z) : float64 :=
  let beta2 := F64.of_Z 1 in
  let precision := prf_divide_binary64 tp_sum pred_sum in
  let recall := prf_divide_binary64 tp_sum true_sum in
  let denom := F64.add (F64.mul beta2 precision) recall in
  let denom := if F64.eqb denom (S754_zero false) then F64.of_Z 1 else denom in
  F64.div (F64.mul (F64.mul (F64.add (F64.of_Z 1) beta2) precision) recall)
          denom.

Definition f1_of_binary64 (tn fp fn tp : Z) : float64 :=
  F64.div (F64.of_Z (2 * tp)) (F64.of_Z (2 * tp + fp + fn)).

(** ** The plotting functions, with the calls into pyplot recorded *)

(** [matplotlib.pyplot]: a call is an event of the trace. A text label
    built with a format string is kept as its fixed part and the value. *)
Module Plt.

Inductive color : Type := white | black.

Inductive array : Type :=
| Doubles (l : list float64)
| Scalars (l : list scalar).

Inductive event : Type :=
| imshow (cm : list (list Z))
| xticks (ticks : list Z) (names : list string)
| yticks (ticks : list Z) (names : list string)
| text (x y : nat) (s : Z) (c : color)
| title (s : string)
| xlabel (s : string)
| ylabel (s : string)
| figure
| plot (x y : array) (label : string) (value : scalar)
| legend
| savefig (fname : string)
| close.

End Plt.

(** The exceptions of the plotting functions: those of [exn], and the
    ValueError of a reduction ([max]) over an array of size zero. *)
Inductive plot_exn : Type :=
| Raised (e : exn)
| ValueError_zero_size.

(** A computation that calls pyplot: it extends the trace, and the trace
    made before an exception stays. *)
Definition fig (A : Type) : Type :=
  list Plt.event -> list Plt.event * (plot_exn + A).

Definition fret {A} (x : A) : fig A := fun tr => (tr, inr x).

Definition fbind {A B} (c : fig A) (k : A -> fig B) : fig B :=
  fun tr =>
    match c tr with
    | (tr', inl e) => (tr', inl e)
    | (tr', inr x) => k x tr'
    end.

Definition emit (e : Plt.event) : fig unit := fun tr => (tr ++ [e], inr tt).

Definition lift {A} (r : res A) : fig A :=
  fun tr => (tr, match r with inl e => inl (Raised e) | inr x => inr x end).

Definition fraise {A} (e : plot_exn) : fig A := fun tr => (tr, inl e).

Notation "x <~ c ;; k" := (fbind c (fun x => k))
  (at level 61, c at next level, right associativity).
Notation "' p <~ c ;; k" := (fbind c (fun p => k))
  (at level 61, p pattern, c at next level, right associativity).
Notation "c ;;~ k" := (fbind c (fun _ => k))
  (at level 61, right associativity).

(** A [for] loop of pyplot calls. *)
Fixpoint for_each {X} (xs : list X) (body : X -> fig unit) : fig unit :=
  match xs with
  | [] => fret tt
  | x :: rest => body x ;;~ for_each rest body
  end.

(** A [for] loop that carries a variable from one iteration to the next. *)
Fixpoint for_fold {S X} (xs : list X) (body : S -> X -> fig S) (s : S) : fig S :=
  match xs with
  | [] => fret s
  | x :: rest => s' <~ body s x ;; for_fold rest body s'
  end.

(** The files saved, in order. *)
Definition saved (tr : list Plt.event) : list string :=
  flat_map (fun e => match e with Plt.savefig f => [f] | _ => [] end) tr.

(** The cell annotations and the curves drawn, in order. *)
Definition texts (tr : list Plt.event) : list Plt.event :=
  filter (fun e => match e with Plt.text _ _ _ _ => true | _ => false end) tr.

Definition drawn (tr : list Plt.event) : list Plt.event :=
  filter (fun e => match e with Plt.plot _ _ _ _ => true | _ => false end) tr.

(** [os.path.join(a, b)] on POSIX. *)
Definition slash : Ascii.ascii := Ascii.ascii_of_nat 47.

Definition starts_with_slash (s : string) : bool :=
  match s with
  | String c _ => Ascii.eqb c slash
  | EmptyString => false
  end.

Fixpoint ends_with_slash (s : string) : bool :=
  match s with
  | EmptyString => false
  | String c EmptyString => Ascii.eqb c slash
  | String _ rest => ends_with_slash rest
  end.

Definition path_join (a b : string) : string :=
  if starts_with_slash b then b
  else if (match a with EmptyString => true | _ => false end) || ends_with_slash a
       then (a ++ b)%string
       else (a ++ "/" ++ b)%string.

Module Figures.

(** [cm.max()]: the largest entry; a matrix without entries raises. *)
Definition cm_max (cm : list (list Z)) : fig Z :=
  match Sk.ravel cm with
  | [] => fraise ValueError_zero_size
  | x :: rest => fret (fold_left Z.max rest x)
  end.

(** [cm.shape]. *)
Definition shape (cm : list (list Z)) : nat * nat :=
  (length cm, match cm with [] => O | row :: _ => length row end).

(** [cm[i, j]]. *)
Definition cell (cm : list (list Z)) (i j : nat) : Z := nth j (nth i cm []) 0.

(** [c > thresh] for an int64 [c] and a double [thresh]. *)
Definition gt_scalar (c : Z) (thresh : scalar) : bool :=
  match thresh with
  | Finite q => negb (Qle_bool (inject_Z c) q)
  | Inf neg => neg
  | Nan => false
  end.

(** Lines 12 to 51. *)
Definition plot_confusion_matrix (preds labels : list Z) (classes : list string)
  (path : string) : fig unit :=
  cm <~ lift (Sk.confusion_matrix labels preds) ;;
  emit (Plt.imshow cm) ;;~
  let tick_marks := map Z.of_nat (seq 0 (length classes)) in
  emit (Plt.xticks tick_marks classes) ;;~
  emit (Plt.yticks tick_marks classes) ;;~
  m <~ cm_max cm ;;
  let thresh := Np.true_divide m 2 in
  for_each (seq 0 (fst (shape cm))) (fun i =>
    for_each (seq 0 (snd (shape cm))) (fun j =>
      emit (Plt.text j i (cell cm i j)
              (if gt_scalar (cell cm i j) thresh then Plt.white else Plt.black))))
  ;;~
  emit (Plt.title "Confusion Matrix"%string) ;;~
  emit (Plt.ylabel "True label"%string) ;;~
  emit (Plt.xlabel "Predicted label"%string) ;;~
  emit (Plt.savefig (path_join path "confusion_matrix.png"%string)) ;;~
  emit Plt.close.

(** The curves of scikit-learn. Their algorithms are not part of the
    repository and nothing below depends on them: [roc_curve],
    [precision_recall_curve] and [average_precision_score] are parameters,
    any functions from the true labels and the scores to a result or an
    exception. *)
Section Curves.

Variable roc_curve :
  list Z -> list float64 -> res (list scalar * list scalar * list float64).
Variable precision_recall_curve :
  list Z -> list float64 -> res (list scalar * list scalar * list float64).
Variable average_precision_score : list Z -> list float64 -> res scalar.

(** Lines 54 to 80. *)
Definition plot_roc_curve (probs : list float64) (labels : list Z)
  (path : string) : fig unit :=
  '(fpr, tpr, _) <~ lift (roc_curve labels probs) ;;
  auc <~ lift (Sk.roc_auc_score labels probs) ;;
  emit (Plt.plot (Plt.Scalars fpr) (Plt.Scalars tpr) "AUC = "%string auc) ;;~
  emit (Plt.title "ROC Curve"%string) ;;~
  emit (Plt.xlabel "False Positive Rate"%string) ;;~
  emit (Plt.ylabel "True Postive Rate"%string) ;;~
  emit Plt.legend ;;~
  emit (Plt.savefig (path_join path "roc_curve.png"%string)) ;;~
  emit Plt.close.

(** Lines 83 to 109. *)
Definition plot_pre_rec_curve (probs : list float64) (labels : list Z)
  (path : string) : fig unit :=
  '(precision, recall, _) <~ lift (precision_recall_curve labels probs) ;;
  ap <~ lift (average_precision_score labels probs) ;;
  emit (Plt.plot (Plt.Scalars recall) (Plt.Scalars precision) "AP = "%string ap) ;;~
  emit (Plt.title "Precision-Recall Curve "%string) ;;~
  emit (Plt.xlabel "Recall"%string) ;;~
  emit (Plt.ylabel "Precision"%string) ;;~
  emit Plt.legend ;;~
  emit (Plt.savefig (path_join path "precision_recall_curve.png"%string)) ;;~
  emit Plt.close.

(** Lines 150 to 159: the pyplot calls for one key. *)
Definition draw (path : string) (p : Plots.plot_call) : fig unit :=
  emit Plt.figure ;;~
  emit (Plt.plot (Plt.Doubles (Plots.plot_x p)) (Plt.Scalars (Plots.plot_y p))
          (Plots.plot_key p ++ " at 0.5 = ")%string (Plots.plot_result p)) ;;~
  emit (Plt.xlabel "Probability Threshold"%string) ;;~
  emit (Plt.ylabel (Plots.plot_key p)) ;;~
  emit Plt.legend ;;~
  emit (Plt.savefig (path_join path (Plots.plot_key p ++ ".png")%string)) ;;~
  emit Plt.close.

(** Lines 112 to 159: [Plots.plot_results_above_threshold] with its pyplot
    calls. The arrays of a key are computed before anything is drawn for
    it. *)
Definition plot_results_above_threshold (probs : list float64)
  (labels : list Z) (path : string) : fig unit :=
  threshold <~ lift (Np.arange lit_0_01 lit_1_00 lit_0_01) ;;
  for_fold (Plots.keys Plots.metrics)
    (fun result key =>
       '(p, result) <~
         lift (Plots.plot_key_series key threshold probs labels result) ;;
       draw path p ;;~
       fret result)
    None ;;~
  fret tt.

(** validate.py, lines 56 to 77. *)
Definition validation_plots (preds : list Z) (probs : list float64)
  (labels : list Z) (path : string) : fig unit :=
  plot_confusion_matrix preds labels ["No Pain"; "Pain"]%string path ;;~
  plot_roc_curve probs labels path ;;~
  plot_pre_rec_curve probs labels path ;;~
  plot_results_above_threshold probs labels path.

End Curves.

End Figures.

(** The value of a double as it is ordered: a ratio of counts is never
    negative and never above 1. *)
Definition in_unit_range (x : scalar) : Prop :=
  exists q, x = Finite q /\ (0 <= q)%Q /\ (q <= 1)%Q.

(** Number of occurrences of a label in an array. *)
Definition occurrences (c : Z) (l : list Z) : Z :=
  Z.of_nat (length (filter (Z.eqb c) l)).

(** * Properties *)

(** ** Order on binary64 *)

Section Float_order.

Ltac order_cases :=
  repeat match goal with
    | |- context [Z.compare ?x ?y] => destruct (Z.compare_spec x y)
    | |- context [Pos.compare_cont Eq ?x ?y] =>
        change (Pos.compare_cont Eq x y) with (Pos.compare x y);
        destruct (Pos.compare_spec x y)
    end;
  simpl; intros; subst; try discriminate; try reflexivity; try lia.

Lemma leb_gtb_trans (a b p : float64) :
  F64.leb a b = true -> F64.gtb p b = true -> F64.gtb p a = true.
Proof.
  unfold F64.leb, SFleb, F64.gtb, SFcompare.
  destruct a as [sa|sa| |sa ma ea], b as [sb|sb| |sb mb eb],
    p as [sp|sp| |sp mp ep];
    try destruct sa; try destruct sb; try destruct sp;
    simpl; try discriminate; try reflexivity; order_cases.
Qed.

Lemma ltb_trans (a b c : float64) :
  F64.ltb a b = true -> F64.ltb b c = true -> F64.ltb a c = true.
Proof.
  unfold F64.ltb, SFltb, SFcompare.
  destruct a as [sa|sa| |sa ma ea], b as [sb|sb| |sb mb eb],
    c as [sc|sc| |sc mc ec];
    try destruct sa; try destruct sb; try destruct sc;
    simpl; try discriminate; try reflexivity; order_cases.
Qed.

Lemma ltb_leb (a b : float64) : F64.ltb a b = true -> F64.leb a b = true.
Proof.
  unfold F64.ltb, F64.leb, SFltb, SFleb.
  destruct (SFcompare a b) as [[ | | ]|]; easy.
Qed.

Lemma gtb_irrefl (a : float64) : F64.gtb a a = false.
Proof.
  unfold F64.gtb, SFcompare.
  destruct a as [sa|sa| |sa ma ea]; try destruct sa; try reflexivity;
    rewrite Z.compare_refl;
    change (Pos.compare_cont Eq ma ma) with (Pos.compare ma ma);
    rewrite Pos.compare_refl; reflexivity.
Qed.

Lemma leb_refl_finite (a : float64) : F64.is_finite a = true -> F64.leb a a = true.
Proof.
  unfold F64.leb, SFleb, SFcompare.
  destruct a as [sa|sa| |sa ma ea]; try destruct sa; try easy;
    rewrite Z.compare_refl;
    change (Pos.compare_cont Eq ma ma) with (Pos.compare ma ma);
    rewrite Pos.compare_refl; reflexivity.
Qed.

Lemma is_probability_finite (p : float64) :
  is_probability p = true -> F64.is_finite p = true.
Proof.
  unfold is_probability.
  destruct p as [s|s| |s m e]; try reflexivity; try destruct s; easy.
Qed.

End Float_order.

(** ** The threshold array *)

(** The literals, as binary64 numbers: 0.01 is 0x1.47ae147ae147bp-7. *)
Example literals :
  lit_0_01 = S754_finite false 5764607523034235 (-59) /\
  lit_0_5 = S754_finite false 4503599627370496 (-53) /\
  lit_0_99 = S754_finite false 8917127262193582 (-53) /\
  lit_1_00 = S754_finite false 4503599627370496 (-52).
Proof. repeat split; vm_compute; reflexivity. Qed.

Lemma arange_threshold : Np.arange lit_0_01 lit_1_00 lit_0_01 = inr threshold.
Proof. vm_compute. reflexivity. Qed.

Lemma threshold_length : length threshold = 99%nat.
Proof. reflexivity. Qed.

Lemma sortedb_Sorted (l : list float64) : sortedb l = true -> Sorted ltb_rel l.
Proof.
  induction l as [|a [|b rest] IH]; intros H.
  - constructor.
  - repeat constructor.
  - apply andb_prop in H. destruct H as [Hab Hrest].
    constructor; [apply IH; exact Hrest | constructor; exact Hab].
Qed.

Lemma threshold_sorted : StronglySorted ltb_rel threshold.
Proof.
  apply Sorted_StronglySorted.
  - intros a b c. apply ltb_trans.
  - apply sortedb_Sorted. vm_compute. reflexivity.
Qed.

Lemma StronglySorted_nth (l : list float64) (i j : nat) :
  StronglySorted ltb_rel l -> (i < j < length l)%nat ->
  F64.ltb (nth i l S754_nan) (nth j l S754_nan) = true.
Proof.
  intros Hs. revert i j.
  induction Hs as [|a l Hs IH Hall]; intros i j Hij; simpl in Hij; [lia|].
  destruct j as [|j]; [lia|]. destruct i as [|i]; simpl.
  - rewrite Forall_forall in Hall. apply Hall. apply nth_In. lia.
  - apply IH. lia.
Qed.

Lemma threshold_increasing (i j : nat) :
  (i < j < 99)%nat ->
  F64.ltb (nth i threshold S754_nan) (nth j threshold S754_nan) = true.
Proof.
  intros H. apply StronglySorted_nth; [apply threshold_sorted | exact H].
Qed.

Lemma threshold_near_hundredths :
  forallb (fun ix : nat * float64 => near_hundredth (fst ix) (snd ix))
          (Plots.enumerate threshold) = true.
Proof. vm_compute. reflexivity. Qed.

(** ** [np.unique] *)

Section Unique.

Lemma In_insert_unique (x z : Z) (l : list Z) :
  In z (Np.insert_unique x l) <-> z = x \/ In z l.
Proof.
  induction l as [|y rest IH]; simpl.
  - intuition.
  - destruct (Z.compare_spec x y) as [Heq|Hlt|Hgt]; simpl.
    + subst. intuition.
    + intuition.
    + rewrite IH. intuition.
Qed.

Lemma In_unique (z : Z) (l : list Z) : In z (Np.unique l) <-> In z l.
Proof.
  unfold Np.unique. induction l as [|x rest IH]; simpl.
  - reflexivity.
  - rewrite In_insert_unique, IH. intuition.
Qed.

Lemma insert_unique_sorted (x : Z) (l : list Z) :
  StronglySorted Z.lt l -> StronglySorted Z.lt (Np.insert_unique x l).
Proof.
  induction 1 as [|y rest Hs IH Hall]; simpl.
  - repeat constructor.
  - destruct (Z.compare_spec x y) as [Heq|Hlt|Hgt].
    + constructor; assumption.
    + constructor; [constructor; assumption|].
      constructor; [exact Hlt|].
      eapply Forall_impl; [|exact Hall]. simpl. intros; lia.
    + constructor; [exact IH|].
      rewrite Forall_forall in *. intros z Hz.
      apply In_insert_unique in Hz. destruct Hz as [->|Hz]; [lia|auto].
Qed.

Lemma unique_sorted (l : list Z) : StronglySorted Z.lt (Np.unique l).
Proof.
  unfold Np.unique. induction l as [|x rest IH]; simpl.
  - constructor.
  - apply insert_unique_sorted, IH.
Qed.

(** A strictly increasing list is determined by its members. *)
Lemma sorted_ext (l1 l2 : list Z) :
  StronglySorted Z.lt l1 -> StronglySorted Z.lt l2 ->
  (forall z, In z l1 <-> In z l2) -> l1 = l2.
Proof.
  intros H1. revert l2.
  induction H1 as [|a l1 Hs1 IH Ha]; intros l2 H2 Hin.
  - destruct l2 as [|b l2]; [reflexivity|].
    exfalso. apply (Hin b). left; reflexivity.
  - destruct H2 as [|b l2 Hs2 Hb].
    + exfalso. apply (Hin a). left; reflexivity.
    + rewrite Forall_forall in Ha, Hb.
      assert (a = b) as ->.
      { destruct (proj1 (Hin a) (or_introl eq_refl)) as [E|Ia]; [auto|].
        destruct (proj2 (Hin b) (or_introl eq_refl)) as [E|Ib]; [auto|].
        specialize (Ha _ Ib). specialize (Hb _ Ia). lia. }
      f_equal. apply IH; [exact Hs2|].
      intros z; split; intros Hz.
      * destruct (proj1 (Hin z) (or_intror Hz)) as [E|I]; [|exact I].
        subst. specialize (Ha _ Hz). lia.
      * destruct (proj2 (Hin z) (or_intror Hz)) as [E|I]; [|exact I].
        subst. specialize (Hb _ Hz). lia.
Qed.

Lemma unique_constant (c : Z) (l : list Z) :
  l <> [] -> Forall (eq c) l -> Np.unique l = [c].
Proof.
  intros Hne Hall. apply sorted_ext.
  - apply unique_sorted.
  - repeat constructor.
  - intros z. rewrite In_unique. rewrite Forall_forall in Hall. simpl.
    split.
    + intros Hz. left. apply Hall, Hz.
    + intros [<-|[]]. destruct l as [|x rest]; [contradiction|].
      rewrite (Hall x (or_introl eq_refl)). left; reflexivity.
Qed.

Lemma unique_zero_one (l : list Z) :
  Forall (fun z => is_label z = true) l -> In 0 l -> In 1 l ->
  Np.unique l = [0; 1].
Proof.
  intros Hall H0 H1. apply sorted_ext.
  - apply unique_sorted.
  - repeat constructor.
  - intros z. rewrite In_unique. rewrite Forall_forall in Hall. simpl.
    split.
    + intros Hz. specialize (Hall _ Hz). unfold is_label in Hall.
      apply orb_prop in Hall. destruct Hall as [E|E];
        apply Z.eqb_eq in E; auto.
    + intros [<-|[<-|[]]]; assumption.
Qed.

(** The labels present in arrays over {0,1}. *)
Lemma unique_labels_cases (l : list Z) :
  Forall (fun z => is_label z = true) l ->
  Np.unique l = [] \/ Np.unique l = [0] \/ Np.unique l = [1]
  \/ Np.unique l = [0; 1].
Proof.
  intros Hall.
  assert (Hmem : forall z, In z (Np.unique l) -> z = 0 \/ z = 1).
  { intros z Hz. rewrite In_unique in Hz. rewrite Forall_forall in Hall.
    specialize (Hall _ Hz). unfold is_label in Hall.
    apply orb_prop in Hall. destruct Hall as [E|E]; apply Z.eqb_eq in E; auto. }
  pose proof (unique_sorted l) as Hs.
  destruct (Np.unique l) as [|a [|b [|c rest]]]; auto.
  - destruct (Hmem a (or_introl eq_refl)); subst; auto.
  - inversion Hs as [|? ? Hs' Ha]; subst. inversion Ha; subst.
    destruct (Hmem a) as [->| ->]; [simpl; auto| |];
      destruct (Hmem b) as [->| ->]; simpl; auto; lia.
  - exfalso.
    inversion Hs as [|? ? Hs' Ha]; subst.
    inversion Hs' as [|? ? Hs'' Hb]; subst.
    inversion Ha as [|? ? Hab Ha']; subst. inversion Ha' as [|? ? Hac _]; subst.
    inversion Hb as [|? ? Hbc _]; subst.
    destruct (Hmem a) as [->| ->]; [simpl; auto| |];
      destruct (Hmem b) as [->| ->]; simpl; auto; try lia;
      destruct (Hmem c) as [->| ->]; simpl; auto; lia.
Qed.

End Unique.

(** ** The confusion matrix and its unpacking *)

Section Confusion.

Lemma check_consistent_length_ok {A B} (a : list A) (b : list B) :
  length a = length b -> Sk.check_consistent_length a b = inr tt.
Proof.
  intros H. unfold Sk.check_consistent_length.
  rewrite (proj2 (Nat.eqb_eq _ _) H). reflexivity.
Qed.

Lemma check_consistent_length_err {A B} (a : list A) (b : list B) :
  length a <> length b ->
  Sk.check_consistent_length a b = inl ValueError_inconsistent_length.
Proof.
  intros H. unfold Sk.check_consistent_length.
  rewrite (proj2 (Nat.eqb_neq _ _) H). reflexivity.
Qed.

Lemma check_targets_ok (y_true y_pred : list Z) :
  length y_true = length y_pred ->
  exists ty, Sk._check_targets y_true y_pred = inr ty.
Proof.
  intros H. unfold Sk._check_targets.
  rewrite (check_consistent_length_ok _ _ H). simpl.
  destruct (Sk.type_of_target y_true), (Sk.type_of_target y_pred);
    try (eexists; reflexivity).
  destruct (2 <? _)%nat; eexists; reflexivity.
Qed.

Lemma check_targets_err (y_true y_pred : list Z) :
  length y_true <> length y_pred ->
  Sk._check_targets y_true y_pred = inl ValueError_inconsistent_length.
Proof.
  intros H. unfold Sk._check_targets.
  rewrite (check_consistent_length_err _ _ H). reflexivity.
Qed.

Lemma confusion_matrix_ok (y_true y_pred : list Z) :
  length y_true = length y_pred ->
  Sk.confusion_matrix y_true y_pred
  = inr (map (fun a => map (fun b => Sk.count_pairs y_true y_pred a b)
                           (Sk.unique_labels y_true y_pred))
             (Sk.unique_labels y_true y_pred)).
Proof.
  intros H. unfold Sk.confusion_matrix.
  destruct (check_targets_ok _ _ H) as [ty ->]. reflexivity.
Qed.

Lemma confusion_matrix_err (y_true y_pred : list Z) :
  length y_true <> length y_pred ->
  Sk.confusion_matrix y_true y_pred = inl ValueError_inconsistent_length.
Proof.
  intros H. unfold Sk.confusion_matrix.
  rewrite (check_targets_err _ _ H). reflexivity.
Qed.

Lemma confusion_counts_err (preds labels : list Z) :
  length preds <> length labels ->
  Validate.confusion_counts preds labels = inl ValueError_inconsistent_length.
Proof.
  intros H. unfold Validate.confusion_counts.
  rewrite confusion_matrix_err by congruence. reflexivity.
Qed.

(** With exactly the labels 0 and 1 present the matrix is 2 x 2 and
    unpacks into tn, fp, fn, tp. *)
Lemma confusion_counts_two (preds labels : list Z) (c0 c1 : Z) :
  length preds = length labels ->
  Sk.unique_labels labels preds = [c0; c1] ->
  Validate.confusion_counts preds labels
  = inr (Sk.count_pairs labels preds c0 c0, Sk.count_pairs labels preds c0 c1,
         Sk.count_pairs labels preds c1 c0, Sk.count_pairs labels preds c1 c1).
Proof.
  intros Hlen Hu. unfold Validate.confusion_counts.
  rewrite confusion_matrix_ok by congruence. rewrite Hu. reflexivity.
Qed.

Lemma unpack4_inv (l : list Z) (x : Z * Z * Z * Z) :
  Validate.unpack4 l = inr x -> length l = 4%nat.
Proof.
  destruct l as [|a [|b [|c [|d [|e rest]]]]]; simpl; intros H;
    try discriminate H; reflexivity.
Qed.

Lemma length_ravel (rows cols : list Z) (g : Z -> Z -> Z) :
  length (Sk.ravel (map (fun a => map (g a) cols) rows))
  = (length rows * length cols)%nat.
Proof.
  unfold Sk.ravel. induction rows as [|a rows IH]; simpl.
  - reflexivity.
  - rewrite length_app, length_map, IH. reflexivity.
Qed.

(** The unpacking succeeds only on a 2 x 2 matrix. *)
Lemma confusion_counts_inv (preds labels : list Z) (tn fp fn tp : Z) :
  Validate.confusion_counts preds labels = inr (tn, fp, fn, tp) ->
  length preds = length labels /\
  exists c0 c1, Sk.unique_labels labels preds = [c0; c1] /\
    tn = Sk.count_pairs labels preds c0 c0 /\
    fp = Sk.count_pairs labels preds c0 c1 /\
    fn = Sk.count_pairs labels preds c1 c0 /\
    tp = Sk.count_pairs labels preds c1 c1.
Proof.
  intros H.
  destruct (Nat.eq_dec (length preds) (length labels)) as [Hlen|Hlen].
  2:{ rewrite confusion_counts_err in H by exact Hlen. discriminate. }
  split; [exact Hlen|].
  unfold Validate.confusion_counts in H.
  rewrite confusion_matrix_ok in H by congruence. simpl in H.
  pose proof (unpack4_inv _ _ H) as H4.
  rewrite length_ravel in H4.
  destruct (Sk.unique_labels labels preds) as [|c0 [|c1 [|c2 rest]]];
    simpl in H4; try lia.
  exists c0, c1. simpl in H. unfold ret in H. inversion H.
  repeat (split; [reflexivity|]). reflexivity.
Qed.

Lemma count_pairs_nonneg (y_true y_pred : list Z) (a b : Z) :
  0 <= Sk.count_pairs y_true y_pred a b.
Proof. unfold Sk.count_pairs. lia. Qed.

Lemma count_pairs_constant (y_true y_pred : list Z) (c : Z) :
  Forall (eq c) y_true -> Forall (eq c) y_pred ->
  Sk.count_pairs y_true y_pred c c
  = Z.of_nat (Nat.min (length y_true) (length y_pred)).
Proof.
  unfold Sk.count_pairs. intros Ht. revert y_pred.
  induction Ht as [|x y_true <- Ht IH]; intros y_pred Hp; simpl.
  - reflexivity.
  - destruct Hp as [|y y_pred <- Hp]; simpl; [reflexivity|].
    rewrite Z.eqb_refl. simpl. specialize (IH _ Hp). lia.
Qed.

End Confusion.

(** ** Claims on [validation_metrics] *)

(** C10. When the predicted and the true labels together hold a single
    class value, [validation_metrics] returns no metric: with arrays of one
    length the confusion matrix is the 1 x 1 matrix [[N]], whose single
    entry cannot be unpacked into tn, fp, fn, tp. *)
Theorem C10_single_class_fails
  (preds : list Z) (probs : list float64) (labels : list Z) (c : Z) :
  labels ++ preds <> [] -> Forall (eq c) (labels ++ preds) ->
  (exists e, Validate.validation_metrics preds probs labels = inl e) /\
  (length preds = length labels ->
   Sk.confusion_matrix labels preds = inr [[Z.of_nat (length labels)]] /\
   Validate.validation_metrics preds probs labels = inl (ValueError_unpack 4 1)).
Proof.
  intros Hne Hall.
  assert (Hu : Sk.unique_labels labels preds = [c])
    by (apply unique_constant; assumption).
  apply Forall_app in Hall. destruct Hall as [Hl Hp].
  assert (Heq : length preds = length labels ->
    Sk.confusion_matrix labels preds = inr [[Z.of_nat (length labels)]] /\
    Validate.validation_metrics preds probs labels = inl (ValueError_unpack 4 1)).
  { intros Hlen.
    assert (Hcm : Sk.confusion_matrix labels preds
                  = inr [[Z.of_nat (length labels)]]).
    { rewrite confusion_matrix_ok by congruence. rewrite Hu. simpl.
      rewrite count_pairs_constant by assumption.
      rewrite Hlen, Nat.min_id. reflexivity. }
    split; [exact Hcm|].
    unfold Validate.validation_metrics, Validate.confusion_counts.
    rewrite Hcm. reflexivity. }
  split; [|exact Heq].
  destruct (Nat.eq_dec (length preds) (length labels)) as [Hlen|Hlen].
  - eexists. apply Heq, Hlen.
  - eexists. unfold Validate.validation_metrics.
    rewrite confusion_counts_err by exact Hlen. reflexivity.
Qed.

Lemma C10_single_class_fails_witness :
  (exists e, Validate.validation_metrics [0; 0] [lit_0_01; lit_0_5] [0; 0] = inl e) /\
  (length [0; 0] = length [0; 0] ->
   Sk.confusion_matrix [0; 0] [0; 0] = inr [[Z.of_nat (length [0; 0])]] /\
   Validate.validation_metrics [0; 0] [lit_0_01; lit_0_5] [0; 0]
   = inl (ValueError_unpack 4 1)).
Proof.
  apply (C10_single_class_fails [0; 0] [lit_0_01; lit_0_5] [0; 0] 0).
  - discriminate.
  - repeat constructor.
Defined.

Section Validation.

Lemma validation_metrics_inv
  (preds : list Z) (probs : list float64) (labels : list Z)
  (report : Validate.dict scalar) :
  Validate.validation_metrics preds probs labels = inr report ->
  exists tn fp fn tp auc,
    Validate.confusion_counts preds labels = inr (tn, fp, fn, tp) /\
    Sk.roc_auc_score labels probs = inr auc /\
    report = [ ("Accuracy", Validate.accuracy_of tn fp fn tp);
               ("F1 Score", Validate.f1_of tn fp fn tp);
               ("Precision", Validate.precision_of tn fp fn tp);
               ("Sensitivity", Validate.sensitivity_of tn fp fn tp);
               ("Specificity", Validate.specificity_of tn fp fn tp);
               ("AUC", auc) ]%string.
Proof.
  unfold Validate.validation_metrics. intros H.
  destruct (Validate.confusion_counts preds labels)
    as [e|[[[tn fp] fn] tp]]; simpl in H; [discriminate|].
  destruct (Sk.roc_auc_score labels probs) as [e|auc]; simpl in H;
    [discriminate|].
  exists tn, fp, fn, tp, auc. unfold ret in H. inversion H.
  repeat split; reflexivity.
Qed.

Lemma type_of_target_binary (y : list Z) :
  (length (Np.unique y) <= 2)%nat -> Sk.type_of_target y = Sk.binary.
Proof.
  intros H. unfold Sk.type_of_target.
  destruct (Nat.ltb_spec 2 (length (Np.unique y))); [lia|reflexivity].
Qed.

(** One class in [y_true]: no area under the curve. *)
Lemma roc_auc_score_one_class (labels : list Z) (probs : list float64) (c : Z) :
  labels <> [] -> Forall (eq c) labels ->
  (exists e, Sk.roc_auc_score labels probs = inl e) /\
  (probs <> [] -> forallb F64.is_finite probs = true ->
   Sk.roc_auc_score labels probs = inl ValueError_only_one_class).
Proof.
  intros Hne Hall.
  pose proof (unique_constant c labels Hne Hall) as Hu.
  unfold Sk.roc_auc_score.
  rewrite type_of_target_binary by (rewrite Hu; simpl; lia).
  destruct labels as [|l0 labels']; [contradiction|]. simpl bind.
  unfold Sk._binary_roc_auc_score. rewrite Hu.
  destruct probs as [|p probs']; simpl.
  - split; [eexists; reflexivity | intros Hc; contradiction].
  - destruct (F64.is_finite p && forallb F64.is_finite probs'); simpl.
    + split; [eexists; reflexivity | reflexivity].
    + split; [eexists; reflexivity | discriminate].
Qed.

(** Both classes in [y_true], and scores that are probabilities: the
    area under the curve is computed. *)
Lemma roc_auc_score_two_classes (labels : list Z) (probs : list float64) :
  Forall (fun z => is_label z = true) labels -> In 0 labels -> In 1 labels ->
  length probs = length labels ->
  forallb is_probability probs = true ->
  exists auc, Sk.roc_auc_score labels probs = inr auc.
Proof.
  intros Hall H0 H1 Hlen Hp.
  pose proof (unique_zero_one labels Hall H0 H1) as Hu.
  unfold Sk.roc_auc_score.
  rewrite type_of_target_binary by (rewrite Hu; simpl; lia).
  destruct labels as [|l0 labels']; [contradiction|]. simpl bind.
  assert (Hfin : forallb F64.is_finite probs = true).
  { rewrite forallb_forall in *. intros p Hin.
    apply is_probability_finite, Hp, Hin. }
  destruct probs as [|p probs']; [discriminate|].
  unfold Sk.check_array_scores. rewrite Hfin. simpl bind.
  unfold Sk._binary_roc_auc_score. rewrite Hu.
  rewrite check_consistent_length_ok by congruence.
  eexists. reflexivity.
Qed.

Lemma true_divide_zero_zero : Np.true_divide 0 0 = Nan.
Proof. reflexivity. Qed.

Lemma inject_Z_nonzero (n : Z) : n <> 0 -> ~ (inject_Z n == 0)%Q.
Proof. unfold Qeq. simpl. lia. Qed.

Lemma true_divide_same (n : Z) : n <> 0 -> Np.true_divide n n = scalar_one.
Proof.
  intros Hn. unfold Np.true_divide.
  rewrite (proj2 (Z.eqb_neq _ _) Hn). unfold scalar_one. f_equal.
  change 1%Q with (Qred 1). apply Qred_complete.
  apply Qmult_inv_r, inject_Z_nonzero, Hn.
Qed.


Lemma count_pairs_off_diagonal (l : list Z) (a b : Z) :
  a <> b -> Sk.count_pairs l l a b = 0.
Proof.
  unfold Sk.count_pairs. intros Hab.
  induction l as [|x l IH]; simpl; [reflexivity|].
  destruct (Z.eqb_spec x a) as [->|Hx]; simpl; [|exact IH].
  rewrite (proj2 (Z.eqb_neq a b) Hab). exact IH.
Qed.

Lemma count_pairs_diagonal_pos (l : list Z) (a : Z) :
  In a l -> 0 < Sk.count_pairs l l a a.
Proof.
  unfold Sk.count_pairs. induction l as [|x l IH]; simpl; [contradiction|].
  intros [->|Hin].
  - rewrite Z.eqb_refl. simpl. lia.
  - specialize (IH Hin). destruct (x =? a); simpl in *; lia.
Qed.

End Validation.

(** The concrete scenarios of the specification. *)
Example scenario_half :
  exists auc,
    Validate.validation_metrics [1; 0; 1; 0]
      [F64.of_ratio 9 10; F64.of_ratio 2 10; F64.of_ratio 8 10;
       F64.of_ratio 1 10]
      [1; 1; 0; 0]
    = inr [ ("Accuracy", Finite (1 # 2)); ("F1 Score", Finite (1 # 2));
            ("Precision", Finite (1 # 2)); ("Sensitivity", Finite (1 # 2));
            ("Specificity", Finite (1 # 2)); ("AUC", auc) ]%string.
Proof. eexists. vm_compute. reflexivity. Qed.

Example scenario_perfect_ranking :
  Sk.roc_auc_score [1; 1; 0; 0]
    [F64.of_ratio 9 10; F64.of_ratio 8 10; F64.of_ratio 2 10; F64.of_ratio 1 10]
  = inr scalar_one.
Proof. vm_compute. reflexivity. Qed.

Example scenario_no_positive_call :
  Validate.validation_metrics [0; 0; 0; 0]
    [F64.of_ratio 9 10; F64.of_ratio 8 10; F64.of_ratio 2 10; F64.of_ratio 1 10]
    [1; 1; 0; 0]
  = inr [ ("Accuracy", Finite (1 # 2)); ("F1 Score", Finite 0);
          ("Precision", Nan); ("Sensitivity", Finite 0);
          ("Specificity", Finite 1); ("AUC", Finite 1) ]%string.
Proof. vm_compute. reflexivity. Qed.



(** C2. When the true labels hold a single class, [roc_auc_score] raises
    instead of returning a value, and so [validation_metrics] returns no
    report. On scores that pass [check_array] (non-empty, finite) the
    exception is the one-class ValueError; it is an exception, where a zero
    denominator of a ratio is the value NaN. *)
Theorem C2_auc_needs_both_classes
  (preds : list Z) (probs : list float64) (labels : list Z) (c : Z) :
  labels <> [] -> Forall (eq c) labels ->
  (exists e, Sk.roc_auc_score labels probs = inl e) /\
  (probs <> [] -> forallb F64.is_finite probs = true ->
   Sk.roc_auc_score labels probs = inl ValueError_only_one_class) /\
  (exists e, Validate.validation_metrics preds probs labels = inl e) /\
  (forall counts, Validate.confusion_counts preds labels = inr counts ->
   probs <> [] -> forallb F64.is_finite probs = true ->
   Validate.validation_metrics preds probs labels
   = inl ValueError_only_one_class).
Proof.
  intros Hne Hall.
  destruct (roc_auc_score_one_class labels probs c Hne Hall) as [[e He] Hone].
  split; [exists e; exact He|]. split; [exact Hone|].
  unfold Validate.validation_metrics. split.
  - destruct (Validate.confusion_counts preds labels)
      as [e'|[[[tn fp] fn] tp]]; simpl.
    + exists e'. reflexivity.
    + rewrite He. exists e. reflexivity.
  - intros [[[tn fp] fn] tp] Hc Hp Hfin. rewrite Hc. simpl.
    rewrite (Hone Hp Hfin). reflexivity.
Qed.

Lemma C2_auc_needs_both_classes_witness :
  Validate.validation_metrics [0; 1] [F64.of_ratio 9 10; F64.of_ratio 8 10] [1; 1]
  = inl ValueError_only_one_class.
Proof.
  refine (proj2 (proj2 (proj2
    (C2_auc_needs_both_classes
       [0; 1] [F64.of_ratio 9 10; F64.of_ratio 8 10] [1; 1] 1 _ _)))
    (0, 0, 1, 1) _ _ _).
  - discriminate.
  - repeat constructor.
  - vm_compute. reflexivity.
  - discriminate.
  - vm_compute. reflexivity.
Defined.

(** C3, as the code has it. On a valid input whose predicted labels equal
    the true labels and whose true labels hold both classes,
    [validation_metrics] returns a report in which Accuracy, Precision,
    Sensitivity, Specificity and F1 Score are 1. *)
Theorem C3_perfect_prediction_two_classes
  (preds : list Z) (probs : list float64) (labels : list Z) :
  valid_input preds probs labels = true -> preds = labels ->
  In 0 labels -> In 1 labels ->
  exists report,
    Validate.validation_metrics preds probs labels = inr report /\
    Validate.lookup "Accuracy" report = Some scalar_one /\
    Validate.lookup "Precision" report = Some scalar_one /\
    Validate.lookup "Sensitivity" report = Some scalar_one /\
    Validate.lookup "Specificity" report = Some scalar_one /\
    Validate.lookup "F1 Score" report = Some scalar_one.
Proof.
  intros Hv -> H0 H1. unfold valid_input in Hv.
  repeat (apply andb_prop in Hv; destruct Hv as [Hv ?]).
  assert (Hl : Forall (fun z => is_label z = true) labels)
    by (apply Forall_forall, forallb_forall; assumption).
  assert (Hlen : length probs = length labels) by (apply Nat.eqb_eq; assumption).
  destruct (roc_auc_score_two_classes labels probs Hl H0 H1 Hlen)
    as [auc Hauc]; [assumption|].
  assert (Hu : Sk.unique_labels labels labels = [0; 1]).
  { apply unique_zero_one.
    - apply Forall_app; split; assumption.
    - apply in_or_app; left; assumption.
    - apply in_or_app; left; assumption. }
  unfold Validate.validation_metrics.
  rewrite (confusion_counts_two labels labels 0 1 eq_refl Hu). simpl bind.
  rewrite Hauc. simpl bind.
  rewrite !(count_pairs_off_diagonal labels 0 1) by lia.
  rewrite !(count_pairs_off_diagonal labels 1 0) by lia.
  pose proof (count_pairs_diagonal_pos labels 0 H0) as Hn0.
  pose proof (count_pairs_diagonal_pos labels 1 H1) as Hn1.
  set (n0 := Sk.count_pairs labels labels 0 0) in *.
  set (n1 := Sk.count_pairs labels labels 1 1) in *.
  unfold Validate.accuracy_of, Validate.precision_of, Validate.sensitivity_of,
    Validate.specificity_of, Validate.f1_of.
  replace (n1 + 0 + n0 + 0) with (n1 + n0) by lia.
  replace (n1 + 0) with n1 by lia.
  replace (0 + n0) with n0 by lia.
  replace (2 * n1 + 0 + 0) with (2 * n1) by lia.
  rewrite !true_divide_same by lia.
  eexists. split; [reflexivity|]. repeat split; reflexivity.
Qed.

Lemma C3_perfect_prediction_two_classes_witness :
  exists report,
    Validate.validation_metrics [1; 0] [F64.of_ratio 9 10; F64.of_ratio 1 10] [1; 0]
    = inr report /\
    Validate.lookup "Accuracy" report = Some scalar_one /\
    Validate.lookup "Precision" report = Some scalar_one /\
    Validate.lookup "Sensitivity" report = Some scalar_one /\
    Validate.lookup "Specificity" report = Some scalar_one /\
    Validate.lookup "F1 Score" report = Some scalar_one.
Proof.
  apply (C3_perfect_prediction_two_classes
           [1; 0] [F64.of_ratio 9 10; F64.of_ratio 1 10] [1; 0]).
  - vm_compute. reflexivity.
  - reflexivity.
  - simpl. auto.
  - simpl. auto.
Defined.

(** C3 as stated fails: the input N = 1, predictedLabel = trueLabel = [1],
    predictedProbability = [0.9] is valid and the predictions are perfect,
    yet no report is returned. *)
Lemma C3_counterexample :
  valid_input [1] [F64.of_ratio 9 10] [1] = true /\
  Validate.validation_metrics [1] [F64.of_ratio 9 10] [1]
  = inl (ValueError_unpack 4 1).
Proof. split; vm_compute; reflexivity. Qed.

(** C9, as the code has it. [validation_metrics] returns no report when
    preds and labels differ in length or when N = 0 (the confusion matrix
    step raises, before any ratio is computed), nor when probs and labels
    differ in length (the AUC step raises). *)
Theorem C9_no_report_on_bad_lengths
  (preds : list Z) (probs : list float64) (labels : list Z) :
  length preds <> length labels \/ length probs <> length labels
  \/ length labels = 0%nat ->
  (exists e, Validate.validation_metrics preds probs labels = inl e) /\
  (length preds <> length labels \/ length labels = 0%nat ->
   exists e, Validate.confusion_counts preds labels = inl e).
Proof.
  intros H.
  assert (Hcc : length preds <> length labels \/ length labels = 0%nat ->
                exists e, Validate.confusion_counts preds labels = inl e).
  { intros [Hlen|Hz].
    - eexists. apply confusion_counts_err, Hlen.
    - destruct (Validate.confusion_counts preds labels)
        as [e|[[[tn fp] fn] tp]] eqn:Hc; [eexists; reflexivity|].
      exfalso.
      destruct (confusion_counts_inv _ _ _ _ _ _ Hc) as (Hlen & c0 & c1 & Hu & _).
      destruct labels; [|discriminate]. destruct preds; [|discriminate].
      discriminate. }
  split; [|exact Hcc].
  unfold Validate.validation_metrics.
  destruct (Validate.confusion_counts preds labels)
    as [e|[[[tn fp] fn] tp]] eqn:Hc; simpl; [eexists; reflexivity|].
  destruct H as [Hlen|[Hlen|Hz]].
  - destruct (Hcc (or_introl Hlen)) as [e He]. discriminate.
  - unfold Sk.roc_auc_score.
    destruct (Sk.check_array_labels labels) as [e|[]]; simpl;
      [eexists; reflexivity|].
    destruct (Sk.check_array_scores probs) as [e|[]]; simpl;
      [eexists; reflexivity|].
    destruct (Sk.type_of_target labels); [|eexists; reflexivity].
    unfold Sk._binary_roc_auc_score.
    destruct (Np.unique labels) as [|c0 [|c1 [|c2 rest]]];
      try (eexists; reflexivity).
    rewrite check_consistent_length_err by congruence.
    eexists; reflexivity.
  - destruct (Hcc (or_intror Hz)) as [e He]. discriminate.
Qed.

Lemma C9_no_report_on_bad_lengths_witness :
  (exists e, Validate.validation_metrics [1; 0] [F64.of_ratio 9 10] [1; 0] = inl e)
  /\ (exists e, Validate.confusion_counts [] [] = inl e).
Proof.
  split.
  - apply (proj1 (C9_no_report_on_bad_lengths
                    [1; 0] [F64.of_ratio 9 10] [1; 0]
                    ltac:(right; left; simpl; lia))).
  - apply (proj2 (C9_no_report_on_bad_lengths [] [] []
                    ltac:(right; right; reflexivity))).
    right. reflexivity.
Defined.

(** C9 as stated fails: the labels 0 and 2 and the probabilities 2.0 and
    -1.0 are outside their declared ranges, and a report is returned. *)
Lemma C9_counterexample :
  valid_input [0; 2] [F64.of_Z 2; F64.of_Z (-1)] [0; 2] = false /\
  forallb is_label [0; 2] = false /\
  forallb is_probability [F64.of_Z 2; F64.of_Z (-1)] = false /\
  Validate.validation_metrics [0; 2] [F64.of_Z 2; F64.of_Z (-1)] [0; 2]
  = inr [ ("Accuracy", Finite 1); ("F1 Score", Finite 1);
          ("Precision", Finite 1); ("Sensitivity", Finite 1);
          ("Specificity", Finite 1); ("AUC", Finite 0) ]%string.
Proof. repeat split; vm_compute; reflexivity. Qed.

(** ** The inner loop of the sweep *)

Section Sweep_loop.

Variable key : string.
Variable probs : list float64.
Variable labels : list Z.

Lemma set_item_middle {A} (done pad : list A) (p v : A) :
  Np.set_item (done ++ p :: pad) (length done) v = done ++ v :: pad.
Proof.
  induction done as [|d done IH]; simpl; [reflexivity|].
  rewrite IH. reflexivity.
Qed.

Lemma body_loop (thrs : list float64) :
  forall (done pad : list scalar) (r : option scalar),
    length pad = length thrs ->
    foldM (Plots.body key probs labels)
          (combine (seq (length done) (length thrs)) thrs) (done ++ pad, r)
    = vals <- mapM (Plots.value_at key probs labels) thrs ;;
      ret (done ++ vals, result_after thrs vals r).
Proof.
  induction thrs as [|thr thrs IH]; intros done pad r Hlen.
  - destruct pad; [|discriminate]. reflexivity.
  - destruct pad as [|p pad]; [discriminate|]. simpl in Hlen.
    cbn [length seq combine foldM mapM Plots.body].
    destruct (Plots.value_at key probs labels thr) as [e|v]; [reflexivity|].
    cbn [bind ret]. rewrite set_item_middle, nth_middle.
    replace (done ++ v :: pad) with ((done ++ [v]) ++ pad)
      by (rewrite <- app_assoc; reflexivity).
    replace (S (length done)) with (length (done ++ [v]))
      by (rewrite length_app; simpl; lia).
    rewrite IH by lia.
    destruct (mapM (Plots.value_at key probs labels) thrs) as [e|vals];
      [reflexivity|].
    cbn [bind ret result_after]. rewrite <- app_assoc. reflexivity.
Qed.

(** The loop stores the values of [value_at] in threshold order and
    raises as soon as one of them raises. *)
Lemma sweep_spec (thrs : list float64) (r : option scalar) :
  Plots.sweep key thrs probs labels r
  = vals <- mapM (Plots.value_at key probs labels) thrs ;;
    ret (vals, result_after thrs vals r).
Proof.
  unfold Plots.sweep, Plots.enumerate, Np.zeros.
  apply (body_loop thrs [] (repeat scalar_zero (length thrs)) r).
  apply repeat_length.
Qed.

Lemma mapM_inv {X Y} (g : X -> res Y) (xs : list X) (ys : list Y) :
  mapM g xs = inr ys -> Forall2 (fun x y => g x = inr y) xs ys.
Proof.
  revert ys. induction xs as [|x xs IH]; intros ys H; simpl in H.
  - unfold ret in H. inversion H. constructor.
  - destruct (g x) as [e|y] eqn:Hg; [discriminate|]. simpl in H.
    destruct (mapM g xs) as [e|ys']; [discriminate|]. simpl in H.
    unfold ret in H. inversion H. constructor; [exact Hg | apply IH; reflexivity].
Qed.

Lemma mapM_ok {X Y} (g : X -> res Y) (xs : list X) :
  (forall x, In x xs -> exists y, g x = inr y) ->
  exists ys, mapM g xs = inr ys.
Proof.
  induction xs as [|x xs IH]; intros H; simpl.
  - eexists; reflexivity.
  - destruct (H x (or_introl eq_refl)) as [y ->].
    destruct IH as [ys ->]; [intros; apply H; right; assumption|].
    eexists; reflexivity.
Qed.

Lemma sweep_inv (thrs : list float64) (r r' : option scalar)
  (arr : list scalar) :
  Plots.sweep key thrs probs labels r = inr (arr, r') ->
  Forall2 (fun thr v => Plots.value_at key probs labels thr = inr v) thrs arr
  /\ r' = result_after thrs arr r.
Proof.
  rewrite sweep_spec. intros H.
  destruct (mapM (Plots.value_at key probs labels) thrs) as [e|vals] eqn:Hm;
    [discriminate|].
  simpl in H. unfold ret in H. inversion H; subst.
  split; [apply mapM_inv; exact Hm | reflexivity].
Qed.

End Sweep_loop.

(** The variable [result] after the loop over the 99 thresholds. *)
Section Result_at_half.

Lemma result_after_no_hit (thrs : list float64) :
  forall (vals : list scalar) (r : option scalar),
    forallb (fun thr => negb (F64.eqb thr lit_0_5)) thrs = true ->
    result_after thrs vals r = r.
Proof.
  induction thrs as [|thr thrs IH]; intros vals r H; simpl.
  - reflexivity.
  - destruct vals as [|v vals]; [reflexivity|].
    simpl in H. apply andb_prop in H. destruct H as [Hthr Hrest].
    apply negb_true_iff in Hthr. rewrite Hthr. apply IH, Hrest.
Qed.

Lemma result_after_hit (pre post : list float64) (thr : float64) :
  F64.eqb thr lit_0_5 = true ->
  forallb (fun t => negb (F64.eqb t lit_0_5)) post = true ->
  forall (vals : list scalar) (r : option scalar),
    (length pre < length vals)%nat ->
    result_after (pre ++ thr :: post) vals r
    = Some (nth (length pre) vals Nan).
Proof.
  intros Hthr Hpost. induction pre as [|a pre IH]; intros vals r Hlen.
  - destruct vals as [|v vals]; [simpl in Hlen; lia|].
    simpl. rewrite Hthr. apply result_after_no_hit, Hpost.
  - destruct vals as [|v vals]; [simpl in Hlen; lia|].
    simpl. apply IH. simpl in Hlen. lia.
Qed.

Lemma threshold_half : nth 49 threshold S754_nan = lit_0_5.
Proof. vm_compute. reflexivity. Qed.

Lemma result_after_threshold (vals : list scalar) (r : option scalar) :
  length vals = 99%nat ->
  result_after threshold vals r = Some (nth 49 vals Nan).
Proof.
  intros Hlen.
  change threshold
    with (firstn 49 threshold ++ nth 49 threshold S754_nan :: skipn 50 threshold).
  rewrite (result_after_hit (firstn 49 threshold) (skipn 50 threshold));
    try (vm_compute; reflexivity).
  rewrite Hlen. vm_compute. lia.
Qed.

End Result_at_half.

(** ** The value stored at one threshold *)

Section Sweep_values.

Variable probs : list float64.
Variable labels : list Z.

Lemma value_at_percentage (thr : float64) :
  Plots.value_at "Percentage of Samples" probs labels thr
  = Plots.sum_over_len (Plots.above probs thr) (length probs).
Proof. reflexivity. Qed.

Lemma value_at_accuracy (thr : float64) :
  Plots.value_at "Accuracy" probs labels thr
  = Sk.accuracy_score labels (Plots.above probs thr).
Proof. reflexivity. Qed.

Lemma value_at_precision (thr : float64) :
  Plots.value_at "Precision" probs labels thr
  = Sk.precision_score labels (Plots.above probs thr) Sk.ZD_0.
Proof. reflexivity. Qed.

Lemma value_at_recall (thr : float64) :
  Plots.value_at "Recall" probs labels thr
  = Sk.recall_score labels (Plots.above probs thr) Sk.ZD_0.
Proof. reflexivity. Qed.

Lemma value_at_f1 (thr : float64) :
  Plots.value_at "F1 Score" probs labels thr
  = Sk.f1_score labels (Plots.above probs thr) Sk.ZD_0.
Proof. reflexivity. Qed.

Lemma above_length (thr : float64) :
  length (Plots.above probs thr) = length probs.
Proof. apply length_map. Qed.

Lemma above_labels (thr : float64) :
  Forall (fun z => is_label z = true) (Plots.above probs thr).
Proof.
  unfold Plots.above. apply Forall_forall. intros z Hz.
  apply in_map_iff in Hz. destruct Hz as (p & <- & _).
  destruct (F64.gtb p thr); reflexivity.
Qed.

End Sweep_values.

Section Sums.

Lemma fold_left_add_acc (l : list Z) (a : Z) :
  fold_left Z.add l a = a + fold_left Z.add l 0.
Proof.
  revert a. induction l as [|x l IH]; intros a; simpl; [lia|].
  rewrite (IH (a + x)), (IH x). lia.
Qed.

Lemma sum_cons (x : Z) (l : list Z) : Np.sum (x :: l) = x + Np.sum l.
Proof. unfold Np.sum. simpl. apply fold_left_add_acc. Qed.

(** Raising the threshold cannot add a positive call. *)
Lemma sum_above_antitone (probs : list float64) (t1 t2 : float64) :
  F64.leb t1 t2 = true ->
  Np.sum (Plots.above probs t2) <= Np.sum (Plots.above probs t1).
Proof.
  intros Hle. induction probs as [|p probs IH]; simpl; [lia|].
  rewrite !sum_cons.
  destruct (F64.gtb p t2) eqn:H2.
  - rewrite (leb_gtb_trans t1 t2 p Hle H2). lia.
  - destruct (F64.gtb p t1); lia.
Qed.

Lemma true_divide_finite (a n : Z) :
  n <> 0 -> Np.true_divide a n = Finite (Qred (inject_Z a / inject_Z n)).
Proof.
  intros Hn. unfold Np.true_divide.
  rewrite (proj2 (Z.eqb_neq _ _) Hn). reflexivity.
Qed.

Lemma true_divide_monotone (a b n : Z) :
  a <= b -> 0 < n ->
  scalar_le (Np.true_divide a n) (Np.true_divide b n).
Proof.
  intros Hab Hn. rewrite !true_divide_finite by lia. unfold scalar_le.
  rewrite !Qred_correct. unfold Qdiv.
  apply Qmult_le_compat_r.
  - rewrite <- Zle_Qle. exact Hab.
  - apply Qinv_le_0_compat. change 0%Q with (inject_Z 0).
    rewrite <- Zle_Qle. lia.
Qed.

(** A quotient of counts is zero exactly when its numerator is. *)
Lemma true_divide_nonzero (a n : Z) :
  n <> 0 -> scalar_nonzero (Np.true_divide a n) = negb (a =? 0).
Proof.
  intros Hn. rewrite true_divide_finite by exact Hn.
  unfold scalar_nonzero. f_equal.
  pose proof (Qred_correct (inject_Z a / inject_Z n)) as Hq.
  destruct (Z.eqb_spec a 0) as [->|Ha].
  - apply Z.eqb_eq.
    assert (H0 : (Qred (inject_Z 0 / inject_Z n) == 0)%Q).
    { rewrite Hq. unfold Qdiv. apply Qmult_0_l. }
    unfold Qeq in H0. change (Qnum 0) with 0 in H0.
    change (QDen 0) with 1 in H0.
    rewrite Z.mul_1_r, Z.mul_0_l in H0. exact H0.
  - apply Z.eqb_neq. intros Hnum.
    assert (H0 : (Qred (inject_Z a / inject_Z n) == 0)%Q).
    { unfold Qeq. rewrite Hnum. reflexivity. }
    rewrite Hq in H0.
    assert (H1 : (inject_Z a == 0)%Q).
    { rewrite <- (Qmult_0_l (inject_Z n)), <- H0.
      unfold Qdiv. rewrite <- Qmult_assoc, (Qmult_comm (/ _)).
      rewrite Qmult_inv_r by (apply inject_Z_nonzero; exact Hn).
      rewrite Qmult_1_r. reflexivity. }
    apply (inject_Z_nonzero a Ha H1).
Qed.

End Sums.

(** ** Claims on [plot_results_above_threshold] *)

Section Sweep_claims.

Lemma Forall2_nth_rel {X Y} (P : X -> Y -> Prop) (xs : list X) (ys : list Y)
  (dx : X) (dy : Y) (i : nat) :
  Forall2 P xs ys -> (i < length xs)%nat -> P (nth i xs dx) (nth i ys dy).
Proof.
  intros H. revert i. induction H as [|x y xs ys Hxy H IH]; intros i Hi;
    simpl in Hi; [lia|].
  destruct i as [|i]; simpl; [exact Hxy | apply IH; lia].
Qed.

Lemma sweep_values (key : string) (probs : list float64) (labels : list Z)
  (r r' : option scalar) (arr : list scalar) :
  Plots.sweep key threshold probs labels r = inr (arr, r') ->
  length arr = 99%nat /\
  (forall i, (i < 99)%nat ->
     Plots.value_at key probs labels (nth i threshold S754_nan)
     = inr (nth i arr Nan)) /\
  r' = Some (nth 49 arr Nan).
Proof.
  intros H. apply sweep_inv in H. destruct H as [HF ->].
  assert (Hlen : length arr = 99%nat).
  { rewrite <- (Forall2_length HF). reflexivity. }
  split; [exact Hlen|]. split.
  - intros i Hi.
    apply (Forall2_nth_rel _ _ _ S754_nan Nan i HF). exact Hi.
  - apply result_after_threshold, Hlen.
Qed.

Lemma sum_over_len_above (probs : list float64) (thr : float64) (v : scalar) :
  Plots.sum_over_len (Plots.above probs thr) (length probs) = inr v ->
  (0 < length probs)%nat /\
  v = Np.true_divide (Np.sum (Plots.above probs thr)) (Z.of_nat (length probs)).
Proof.
  destruct probs as [|p probs]; simpl; intros H.
  - discriminate.
  - unfold ret in H. inversion H. split; [lia | reflexivity].
Qed.

End Sweep_claims.

(** C5. [np.arange(0.01, 1.00, 0.01)] has exactly 99 elements; the first is
    the double 0.01, the last the double 0.99, element i is (i+1)/100 up to
    the rounding of binary64, and they increase strictly. The inner loop
    evaluates each of them once, in order. At a threshold a sample is
    classified 1 exactly when its probability is greater than the threshold
    in the order of binary64, so a probability equal to the threshold is
    classified 0. *)
Theorem C5_thresholds_and_strict_rule :
  Np.arange lit_0_01 lit_1_00 lit_0_01 = inr threshold /\
  length threshold = 99%nat /\
  nth 0 threshold S754_nan = lit_0_01 /\
  nth 98 threshold S754_nan = lit_0_99 /\
  (forall i, (i < 99)%nat -> near_hundredth i (nth i threshold S754_nan) = true) /\
  (forall i j, (i < j < 99)%nat ->
     F64.ltb (nth i threshold S754_nan) (nth j threshold S754_nan) = true) /\
  (forall key probs labels r arr r',
     Plots.sweep key threshold probs labels r = inr (arr, r') ->
     length arr = 99%nat /\
     forall i, (i < 99)%nat ->
       Plots.value_at key probs labels (nth i threshold S754_nan)
       = inr (nth i arr Nan)) /\
  (forall probs thr k, (k < length probs)%nat ->
     nth k (Plots.above probs thr) 0
     = if F64.gtb (nth k probs S754_nan) thr then 1 else 0) /\
  (forall thr, F64.gtb thr thr = false).
Proof.
  split; [exact arange_threshold|].
  split; [reflexivity|].
  split; [vm_compute; reflexivity|].
  split; [vm_compute; reflexivity|].
  split.
  { intros i Hi.
    do 99 (destruct i as [|i]; [vm_compute; reflexivity|]). lia. }
  split; [exact threshold_increasing|].
  split.
  { intros key probs labels r arr r' H.
    destruct (sweep_values _ _ _ _ _ _ H) as (Hlen & Hval & _).
    split; assumption. }
  split.
  { intros probs thr. induction probs as [|p probs IH]; intros k Hk;
      simpl in Hk; [lia|].
    destruct k as [|k]; simpl; [reflexivity | apply IH; lia]. }
  exact gtb_irrefl.
Qed.

Lemma C5_thresholds_and_strict_rule_witness :
  near_hundredth 6 (nth 6 threshold S754_nan) = true /\
  F64.ltb (nth 48 threshold S754_nan) (nth 49 threshold S754_nan) = true /\
  nth 1 (Plots.above [lit_0_01; lit_0_5; lit_0_99] lit_0_5) 0
  = (if F64.gtb (nth 1 [lit_0_01; lit_0_5; lit_0_99] S754_nan) lit_0_5
     then 1 else 0).
Proof.
  pose proof C5_thresholds_and_strict_rule
    as (_ & _ & _ & _ & Hnear & Hlt & _ & Hcls & _).
  split; [apply Hnear; lia|].
  split; [apply Hlt; lia|].
  apply Hcls. simpl. lia.
Defined.

(** C8. In the array the sweep fills for "Percentage of Samples", a value
    at a later threshold is never above a value at an earlier one. *)
Theorem C8_percentage_non_increasing
  (probs : list float64) (labels : list Z) (r r' : option scalar)
  (arr : list scalar) (i j : nat) :
  Plots.sweep "Percentage of Samples" threshold probs labels r = inr (arr, r') ->
  (i <= j < 99)%nat ->
  scalar_le (nth j arr Nan) (nth i arr Nan).
Proof.
  intros H Hij.
  destruct (sweep_values _ _ _ _ _ _ H) as (_ & Hval & _).
  pose proof (Hval i ltac:(lia)) as Hi. pose proof (Hval j ltac:(lia)) as Hj.
  rewrite value_at_percentage in Hi, Hj.
  apply sum_over_len_above in Hi. apply sum_over_len_above in Hj.
  destruct Hi as [Hn ->]. destruct Hj as [_ ->].
  apply true_divide_monotone; [|lia].
  destruct (Nat.eq_dec i j) as [->|Hne]; [lia|].
  apply sum_above_antitone, ltb_leb, threshold_increasing. lia.
Qed.

Lemma C8_percentage_non_increasing_witness :
  scalar_le (Finite (1 # 2)) (Finite 1).
Proof.
  apply (C8_percentage_non_increasing
           [F64.of_ratio 3 10; F64.of_ratio 7 10] [0; 1] None
           (Some (Finite (1 # 2)))
           (repeat (Finite 1) 29 ++ repeat (Finite (1 # 2)) 40
            ++ repeat (Finite 0) 30) 10 40).
  - vm_compute. reflexivity.
  - lia.
Defined.

(** ** The scorers on arrays over {0,1} *)

Section Scorers.

Variables y_true y_pred : list Z.
Hypothesis Hlen : length y_true = length y_pred.
Hypothesis Htrue : Forall (fun z => is_label z = true) y_true.
Hypothesis Hpred : Forall (fun z => is_label z = true) y_pred.

Lemma unique_length_le2 (l : list Z) :
  Forall (fun z => is_label z = true) l -> (length (Np.unique l) <= 2)%nat.
Proof.
  intros H. destruct (unique_labels_cases l H) as [E|[E|[E|E]]];
    rewrite E; simpl; lia.
Qed.

Lemma check_targets_binary : Sk._check_targets y_true y_pred = inr Sk.binary.
Proof.
  unfold Sk._check_targets.
  rewrite (check_consistent_length_ok _ _ Hlen). cbn [bind].
  rewrite !type_of_target_binary by (apply unique_length_le2; assumption).
  assert (H : (length (Sk.unique_labels y_true y_pred) <= 2)%nat).
  { apply unique_length_le2, Forall_app. split; assumption. }
  destruct (Nat.ltb_spec 2 (length (Sk.unique_labels y_true y_pred)));
    [lia | reflexivity].
Qed.

Lemma check_set_wise_labels_ok : Sk._check_set_wise_labels y_true y_pred = inr tt.
Proof.
  unfold Sk._check_set_wise_labels. rewrite check_targets_binary. cbn [bind].
  assert (H : Forall (fun z => is_label z = true) (y_true ++ y_pred))
    by (apply Forall_app; split; assumption).
  unfold Sk.unique_labels.
  destruct (unique_labels_cases _ H) as [E|[E|[E|E]]]; rewrite E; reflexivity.
Qed.

Lemma precision_score_ok (zd : Sk.zero_division) :
  Sk.precision_score y_true y_pred zd
  = inr (Sk._prf_divide (Sk.tp_sum y_true y_pred) (Sk.pred_sum y_pred) zd).
Proof.
  unfold Sk.precision_score. rewrite check_set_wise_labels_ok. reflexivity.
Qed.

Lemma recall_score_ok (zd : Sk.zero_division) :
  Sk.recall_score y_true y_pred zd
  = inr (Sk._prf_divide (Sk.tp_sum y_true y_pred) (Sk.true_sum y_true) zd).
Proof.
  unfold Sk.recall_score. rewrite check_set_wise_labels_ok. reflexivity.
Qed.

Lemma f1_score_ok (zd : Sk.zero_division) :
  Sk.f1_score y_true y_pred zd
  = inr (Sk._prf_divide (2 * Sk.tp_sum y_true y_pred)
           (Sk.true_sum y_true + Sk.pred_sum y_pred) zd).
Proof.
  unfold Sk.f1_score. rewrite check_set_wise_labels_ok. reflexivity.
Qed.

Lemma accuracy_score_ok :
  Sk.accuracy_score y_true y_pred
  = inr (Np.true_divide
           (Z.of_nat (length (filter (fun tp : Z * Z => fst tp =? snd tp)
                                     (combine y_true y_pred))))
           (Z.of_nat (length y_true))).
Proof.
  unfold Sk.accuracy_score. rewrite check_targets_binary. reflexivity.
Qed.

End Scorers.

Lemma prf_divide_finite (num den : Z) :
  is_Finite (Sk._prf_divide num den Sk.ZD_0).
Proof.
  unfold Sk._prf_divide, is_Finite. destruct (Z.eqb_spec den 0) as [->|Hd].
  - eexists; reflexivity.
  - rewrite true_divide_finite by exact Hd. eexists; reflexivity.
Qed.

Lemma prf_divide_zero (num : Z) (zd : Sk.zero_division) :
  Sk._prf_divide num 0 zd = Sk.zero_division_value zd.
Proof. reflexivity. Qed.

Lemma valid_sweep_input_inv (probs : list float64) (labels : list Z) :
  valid_sweep_input probs labels = true ->
  length probs = length labels /\ (1 <= length labels)%nat /\
  Forall (fun z => is_label z = true) labels /\
  forallb is_probability probs = true.
Proof.
  unfold valid_sweep_input. intros H.
  repeat (apply andb_prop in H; destruct H as [H ?]).
  repeat split.
  - apply Nat.eqb_eq; assumption.
  - apply Nat.leb_le; assumption.
  - apply Forall_forall, forallb_forall; assumption.
  - assumption.
Qed.

(** On a valid input of the sweep every stored value is a number. *)
Lemma value_at_finite (key : string) (probs : list float64) (labels : list Z)
  (thr : float64) :
  length probs = length labels -> (1 <= length labels)%nat ->
  Forall (fun z => is_label z = true) labels ->
  In key (Plots.keys Plots.metrics) ->
  exists q, Plots.value_at key probs labels thr = inr (Finite q).
Proof.
  intros Hlen Hn Hl Hkey.
  assert (Hlen' : length labels = length (Plots.above probs thr))
    by (rewrite above_length; congruence).
  pose proof (above_labels probs thr) as Hp.
  simpl in Hkey.
  destruct Hkey as [<-|[<-|[<-|[<-|[<-|[]]]]]].
  - rewrite value_at_percentage.
    destruct probs as [|p probs]; [simpl in Hlen; lia|].
    cbn [Plots.above map Plots.sum_over_len].
    rewrite true_divide_finite by (simpl; lia). eexists; reflexivity.
  - rewrite value_at_accuracy, (accuracy_score_ok _ _ Hlen' Hl Hp).
    rewrite true_divide_finite by lia. eexists; reflexivity.
  - rewrite value_at_precision, (precision_score_ok _ _ Hlen' Hl Hp).
    destruct (prf_divide_finite (Sk.tp_sum labels (Plots.above probs thr))
                (Sk.pred_sum (Plots.above probs thr))) as [q ->].
    eexists; reflexivity.
  - rewrite value_at_recall, (recall_score_ok _ _ Hlen' Hl Hp).
    destruct (prf_divide_finite (Sk.tp_sum labels (Plots.above probs thr))
                (Sk.true_sum labels)) as [q ->].
    eexists; reflexivity.
  - rewrite value_at_f1, (f1_score_ok _ _ Hlen' Hl Hp).
    destruct (prf_divide_finite (2 * Sk.tp_sum labels (Plots.above probs thr))
                (Sk.true_sum labels + Sk.pred_sum (Plots.above probs thr)))
      as [q ->].
    eexists; reflexivity.
Qed.

(** ** The two loops on a valid input, and what a returned plot holds *)

Section Loops.

Variable probs : list float64.
Variable labels : list Z.

Lemma Forall2_values_finite (key : string) (thrs : list float64)
  (arr : list scalar) :
  (forall thr, exists q, Plots.value_at key probs labels thr = inr (Finite q)) ->
  Forall2 (fun thr v => Plots.value_at key probs labels thr = inr v) thrs arr ->
  Forall is_Finite arr.
Proof.
  intros Hfin H. induction H as [|thr v thrs arr Hv H IH]; constructor.
  - destruct (Hfin thr) as [q Hq]. rewrite Hq in Hv. inversion Hv.
    exists q; reflexivity.
  - exact IH.
Qed.

Lemma sweep_ok (key : string) (r : option scalar) :
  (forall thr, exists q, Plots.value_at key probs labels thr = inr (Finite q)) ->
  exists arr,
    Plots.sweep key threshold probs labels r = inr (arr, Some (nth 49 arr Nan))
    /\ length arr = 99%nat /\ Forall is_Finite arr.
Proof.
  intros Hfin.
  destruct (mapM_ok (Plots.value_at key probs labels) threshold) as [arr Harr].
  { intros thr _. destruct (Hfin thr) as [q Hq]. eexists; exact Hq. }
  assert (Hs : Plots.sweep key threshold probs labels r
               = inr (arr, result_after threshold arr r)).
  { rewrite sweep_spec, Harr. reflexivity. }
  destruct (sweep_values _ _ _ _ _ _ Hs) as (Hlen & _ & Hr).
  exists arr. rewrite Hs, Hr. split; [reflexivity|]. split; [exact Hlen|].
  apply (Forall2_values_finite key threshold); [exact Hfin|].
  apply mapM_inv, Harr.
Qed.

Lemma plot_key_series_inv (thrs : list float64) (key : string)
  (r r' : option scalar) (p : Plots.plot_call) :
  Plots.plot_key_series key thrs probs labels r = inr (p, r') ->
  exists arr,
    Plots.sweep key thrs probs labels r = inr (arr, r') /\
    r' = Some (Plots.plot_result p) /\
    Plots.plot_key p = key /\
    Plots.plot_x p = Np.select thrs (map scalar_nonzero arr) /\
    Plots.plot_y p = Np.select arr (map scalar_nonzero arr).
Proof.
  unfold Plots.plot_key_series. intros H.
  destruct (Plots.sweep key thrs probs labels r) as [e|[arr r1]];
    [discriminate|].
  cbn [bind] in H. destruct r1 as [v|]; [|discriminate].
  unfold ret in H. injection H as Hp Hr. subst p r'. exists arr.
  repeat split; reflexivity.
Qed.

Lemma outer_loop_inv (thrs : list float64) (ks : list string) :
  forall (plots0 plots : list Plots.plot_call) (r0 r' : option scalar),
    foldM (Plots.outer_body thrs probs labels) ks (plots0, r0)
    = inr (plots, r') ->
    exists new,
      plots = plots0 ++ new /\ map Plots.plot_key new = ks /\
      Forall (fun p => exists r r1,
                Plots.plot_key_series (Plots.plot_key p) thrs probs labels r
                = inr (p, r1)) new.
Proof.
  induction ks as [|key ks IH]; intros plots0 plots r0 r' H.
  - simpl in H. unfold ret in H. injection H as <- <-.
    exists []. rewrite app_nil_r. repeat split. constructor.
  - cbn [foldM Plots.outer_body] in H.
    destruct (Plots.plot_key_series key thrs probs labels r0)
      as [e|[p r1]] eqn:Hp; [discriminate|].
    cbn [bind ret] in H.
    destruct (IH _ _ _ _ H) as (new & -> & Hkeys & Hall).
    destruct (plot_key_series_inv _ _ _ _ _ Hp) as (_ & _ & _ & Hk & _).
    exists (p :: new). rewrite <- app_assoc. split; [reflexivity|].
    split; [simpl; congruence|].
    constructor; [|exact Hall].
    exists r0, r1. rewrite Hk. exact Hp.
Qed.

Lemma outer_loop_ok (ks : list string) :
  (forall key, In key ks -> forall thr,
     exists q, Plots.value_at key probs labels thr = inr (Finite q)) ->
  forall (plots0 : list Plots.plot_call) (r0 : option scalar),
  exists plots r',
    foldM (Plots.outer_body threshold probs labels) ks (plots0, r0)
    = inr (plots, r').
Proof.
  induction ks as [|key ks IH]; intros Hfin plots0 r0.
  - eexists _, _. reflexivity.
  - cbn [foldM Plots.outer_body].
    destruct (sweep_ok key r0 (Hfin key (or_introl eq_refl)))
      as (arr & Hs & _).
    unfold Plots.plot_key_series. rewrite Hs. cbn [bind ret].
    apply IH. intros k Hk. apply Hfin. right; exact Hk.
Qed.

Lemma plot_results_inv (plots : list Plots.plot_call) :
  Plots.plot_results_above_threshold probs labels = inr plots ->
  map Plots.plot_key plots = Plots.keys Plots.metrics /\
  Forall (fun p => exists r r1,
            Plots.plot_key_series (Plots.plot_key p) threshold probs labels r
            = inr (p, r1)) plots.
Proof.
  unfold Plots.plot_results_above_threshold. rewrite arange_threshold.
  cbn [bind]. intros H.
  destruct (foldM (Plots.outer_body threshold probs labels)
              (Plots.keys Plots.metrics) ([], None)) as [e|[ps r']] eqn:Hf;
    [discriminate|].
  cbn [bind ret] in H. injection H as <-.
  destruct (outer_loop_inv _ _ _ _ _ _ Hf) as (new & -> & Hk & Hall).
  split; assumption.
Qed.

End Loops.

Section Masks.

Lemma select_pairs {A} (a : list A) (b : list scalar) :
  length a = length b ->
  combine (Np.select a (map scalar_nonzero b))
          (Np.select b (map scalar_nonzero b))
  = filter (fun tv : A * scalar => scalar_nonzero (snd tv)) (combine a b)
  /\ length (Np.select a (map scalar_nonzero b))
     = length (Np.select b (map scalar_nonzero b)).
Proof.
  revert b. induction a as [|x a IH]; intros [|y b] Hlen;
    simpl in Hlen; try discriminate.
  - split; reflexivity.
  - injection Hlen as Hlen. destruct (IH b Hlen) as [IH1 IH2].
    simpl. destruct (scalar_nonzero y); simpl; rewrite IH1, IH2;
      split; reflexivity.
Qed.

Lemma select_In {A} (a : list A) (mask : list bool) (x : A) :
  In x (Np.select a mask) -> In x a.
Proof.
  revert mask. induction a as [|y a IH]; intros [|b mask] H; simpl in H;
    try contradiction.
  destruct b; simpl in *; [destruct H as [->|H]|]; eauto.
Qed.

Lemma select_sorted (a : list float64) (mask : list bool) :
  StronglySorted ltb_rel a -> StronglySorted ltb_rel (Np.select a mask).
Proof.
  intros Hs. revert mask.
  induction Hs as [|x a Hs IH Hall]; intros [|b mask]; simpl;
    try constructor.
  destruct b; [|apply IH].
  constructor; [apply IH|].
  rewrite Forall_forall in *. intros y Hy. apply Hall.
  eapply select_In, Hy.
Qed.

End Masks.

(** On a valid input both loops run to their end. *)
Lemma plot_results_valid (probs : list float64) (labels : list Z) :
  valid_sweep_input probs labels = true ->
  exists plots,
    Plots.plot_results_above_threshold probs labels = inr plots /\
    map Plots.plot_key plots = Plots.keys Plots.metrics.
Proof.
  intros Hv. destruct (valid_sweep_input_inv _ _ Hv) as (Hlen & Hn & Hl & _).
  assert (Hfin : forall key, In key (Plots.keys Plots.metrics) -> forall thr,
            exists q, Plots.value_at key probs labels thr = inr (Finite q)).
  { intros key Hk thr. apply value_at_finite; assumption. }
  destruct (outer_loop_ok probs labels _ Hfin [] None) as (plots & r' & Hf).
  exists plots.
  assert (Hres : Plots.plot_results_above_threshold probs labels = inr plots).
  { unfold Plots.plot_results_above_threshold. rewrite arange_threshold.
    cbn [bind]. rewrite Hf. reflexivity. }
  split; [exact Hres|]. apply (plot_results_inv _ _ _ Hres).
Qed.

(** C6. On a valid input of the sweep (N >= 1 probabilities, as many true
    labels in {0,1}) the function returns one plot per key; for each key the
    inner loop stores a number at each of the 99 thresholds; and at a
    threshold where the denominator of Precision, Recall or F1 Score is zero
    the stored value is 0. Accuracy is a quotient by N. *)
Theorem C6_sweep_is_total (probs : list float64) (labels : list Z) :
  valid_sweep_input probs labels = true ->
  (exists plots,
     Plots.plot_results_above_threshold probs labels = inr plots /\
     map Plots.plot_key plots = Plots.keys Plots.metrics) /\
  (forall key r, In key (Plots.keys Plots.metrics) ->
     exists arr,
       Plots.sweep key threshold probs labels r
       = inr (arr, Some (nth 49 arr Nan)) /\
       length arr = 99%nat /\ Forall is_Finite arr) /\
  (forall thr,
     (Sk.pred_sum (Plots.above probs thr) = 0 ->
      Plots.value_at "Precision" probs labels thr = inr scalar_zero) /\
     (Sk.true_sum labels = 0 ->
      Plots.value_at "Recall" probs labels thr = inr scalar_zero) /\
     (Sk.true_sum labels + Sk.pred_sum (Plots.above probs thr) = 0 ->
      Plots.value_at "F1 Score" probs labels thr = inr scalar_zero) /\
     (exists q, Plots.value_at "Accuracy" probs labels thr = inr (Finite q))).
Proof.
  intros Hv. destruct (valid_sweep_input_inv _ _ Hv) as (Hlen & Hn & Hl & _).
  assert (Hfin : forall key, In key (Plots.keys Plots.metrics) -> forall thr,
            exists q, Plots.value_at key probs labels thr = inr (Finite q)).
  { intros key Hk thr. apply value_at_finite; assumption. }
  split; [apply plot_results_valid; exact Hv|].
  split.
  { intros key r Hk. apply sweep_ok. apply Hfin, Hk. }
  intros thr.
  assert (Hlen' : length labels = length (Plots.above probs thr))
    by (rewrite above_length; congruence).
  pose proof (above_labels probs thr) as Hp.
  repeat split.
  - intros H0. rewrite value_at_precision, (precision_score_ok _ _ Hlen' Hl Hp).
    rewrite H0. reflexivity.
  - intros H0. rewrite value_at_recall, (recall_score_ok _ _ Hlen' Hl Hp).
    rewrite H0. reflexivity.
  - intros H0. rewrite value_at_f1, (f1_score_ok _ _ Hlen' Hl Hp).
    rewrite H0. reflexivity.
  - apply value_at_finite; try assumption. simpl. auto.
Qed.

Lemma C6_sweep_is_total_witness :
  Plots.value_at "Recall" [F64.of_ratio 3 10; F64.of_ratio 2 10] [0; 0] lit_0_5
  = inr scalar_zero.
Proof.
  pose proof (C6_sweep_is_total [F64.of_ratio 3 10; F64.of_ratio 2 10] [0; 0])
    as H.
  assert (Hv : valid_sweep_input [F64.of_ratio 3 10; F64.of_ratio 2 10] [0; 0]
               = true) by (vm_compute; reflexivity).
  destruct (H Hv) as (_ & _ & Hz).
  destruct (Hz lit_0_5) as (_ & Hrec & _).
  apply Hrec. reflexivity.
Defined.

(** C7. Each plot the function returns holds, for its key, exactly the
    (threshold, value) pairs of the 99 thresholds whose stored value is not
    0, in the order of the thresholds, which is strictly increasing. *)
Theorem C7_series_are_the_nonzero_pairs
  (probs : list float64) (labels : list Z) (plots : list Plots.plot_call) :
  Plots.plot_results_above_threshold probs labels = inr plots ->
  map Plots.plot_key plots = Plots.keys Plots.metrics /\
  Forall (fun p => exists arr r r',
            Plots.sweep (Plots.plot_key p) threshold probs labels r
            = inr (arr, r') /\
            length arr = 99%nat /\
            combine (Plots.plot_x p) (Plots.plot_y p)
            = filter (fun tv : float64 * scalar => scalar_nonzero (snd tv))
                     (combine threshold arr) /\
            length (Plots.plot_x p) = length (Plots.plot_y p) /\
            StronglySorted ltb_rel (Plots.plot_x p)) plots.
Proof.
  intros H. destruct (plot_results_inv _ _ _ H) as [Hk Hall].
  split; [exact Hk|].
  eapply Forall_impl; [|exact Hall]. intros p (r & r1 & Hp).
  destruct (plot_key_series_inv _ _ _ _ _ _ _ Hp) as (arr & Hs & _ & _ & Hx & Hy).
  destruct (sweep_values _ _ _ _ _ _ Hs) as (Hlen & _).
  exists arr, r, r1. split; [exact Hs|]. split; [exact Hlen|].
  rewrite Hx, Hy.
  destruct (select_pairs threshold arr) as [Hc Hl];
    [rewrite Hlen; reflexivity|].
  split; [exact Hc|]. split; [exact Hl|].
  apply select_sorted, threshold_sorted.
Qed.

Lemma C7_series_are_the_nonzero_pairs_witness :
  exists plots,
    Plots.plot_results_above_threshold
      [F64.of_ratio 3 10; F64.of_ratio 2 10] [0; 1] = inr plots /\
    map Plots.plot_key plots = Plots.keys Plots.metrics /\
    Forall (fun p => exists arr r r',
              Plots.sweep (Plots.plot_key p) threshold
                [F64.of_ratio 3 10; F64.of_ratio 2 10] [0; 1] r
              = inr (arr, r') /\
              length arr = 99%nat /\
              combine (Plots.plot_x p) (Plots.plot_y p)
              = filter (fun tv : float64 * scalar => scalar_nonzero (snd tv))
                       (combine threshold arr) /\
              length (Plots.plot_x p) = length (Plots.plot_y p) /\
              StronglySorted ltb_rel (Plots.plot_x p)) plots.
Proof.
  destruct (plot_results_valid [F64.of_ratio 3 10; F64.of_ratio 2 10] [0; 1])
    as (plots & Hplots & _); [vm_compute; reflexivity|].
  exists plots. split; [exact Hplots|].
  apply (C7_series_are_the_nonzero_pairs _ _ plots Hplots).
Defined.

(** ** The value recorded at 0.5 *)

Section Counts.

(** On two arrays over {0,1} of one length, the four cells of the
    confusion matrix split the samples, and give the counts the scorers
    use. *)
Lemma counts_partition (y_true : list Z) :
  forall y_pred : list Z,
    length y_true = length y_pred ->
    Forall (fun z => is_label z = true) y_true ->
    Forall (fun z => is_label z = true) y_pred ->
    Z.of_nat (length y_true)
    = Sk.count_pairs y_true y_pred 0 0 + Sk.count_pairs y_true y_pred 0 1
      + Sk.count_pairs y_true y_pred 1 0 + Sk.count_pairs y_true y_pred 1 1
    /\ Z.of_nat (length (filter (fun tp : Z * Z => fst tp =? snd tp)
                                (combine y_true y_pred)))
       = Sk.count_pairs y_true y_pred 0 0 + Sk.count_pairs y_true y_pred 1 1
    /\ Sk.pred_sum y_pred
       = Sk.count_pairs y_true y_pred 0 1 + Sk.count_pairs y_true y_pred 1 1
    /\ Sk.true_sum y_true
       = Sk.count_pairs y_true y_pred 1 0 + Sk.count_pairs y_true y_pred 1 1.
Proof.
  unfold Sk.count_pairs, Sk.pred_sum, Sk.true_sum.
  induction y_true as [|x y_true IH]; intros [|y y_pred] Hlen Ht Hp;
    simpl in Hlen; try discriminate.
  - repeat split; reflexivity.
  - inversion Ht as [|? ? Hx Ht']; subst. inversion Hp as [|? ? Hy Hp']; subst.
    destruct (IH y_pred ltac:(lia) Ht' Hp') as (I1 & I2 & I3 & I4).
    unfold is_label in Hx, Hy.
    apply orb_prop in Hx. apply orb_prop in Hy.
    destruct Hx as [Hx|Hx]; apply Z.eqb_eq in Hx; subst x;
      destruct Hy as [Hy|Hy]; apply Z.eqb_eq in Hy; subst y;
      cbn [combine filter fst snd Z.eqb andb Pos.eqb length];
      rewrite ?Nat2Z.inj_succ; repeat split; lia.
Qed.

End Counts.

(** C4, as the code has it. The threshold of index 49 is exactly 0.5 and
    no other threshold is, so the value recorded for a key is the value
    stored at 0.5. On probabilities and true labels of one length N >= 1,
    the labels in {0,1}, let tn, fp, fn, tp be the four counts of the true
    label against the label predicted at 0.5; they are the counts line 35 of
    validate.py unpacks whenever the confusion matrix unpacks. The value
    recorded is then the ratio of line 37 for Accuracy, and the ratio of
    line 38 for Precision and of line 39 for Recall whenever the denominator
    of the ratio is not zero; on a zero denominator the sweep records 0.
    For F1 Score no equality is stated: the library evaluates the harmonic
    mean of precision and recall in binary64, and with probabilities all
    0.9 and true labels 1, 0, 1, 1, 0 (tp = 3, fp = 2, fn = 0) it yields
    6755399441055743 * 2^-53 where line 41 yields
    6755399441055744 * 2^-53 = 0.75. *)
Theorem C4_recorded_value_at_half
  (probs : list float64) (labels : list Z) (plots : list Plots.plot_call) :
  Plots.plot_results_above_threshold probs labels = inr plots ->
  nth 49 threshold S754_nan = lit_0_5 /\
  (forall i, (i < 99)%nat -> i <> 49%nat ->
     F64.eqb (nth i threshold S754_nan) lit_0_5 = false) /\
  Forall (fun p => Plots.value_at (Plots.plot_key p) probs labels lit_0_5
                   = inr (Plots.plot_result p)) plots /\
  (valid_sweep_input probs labels = true ->
   let preds := Plots.above probs lit_0_5 in
   let tn := Sk.count_pairs labels preds 0 0 in
   let fp := Sk.count_pairs labels preds 0 1 in
   let fn := Sk.count_pairs labels preds 1 0 in
   let tp := Sk.count_pairs labels preds 1 1 in
   (forall a b c d,
      Validate.confusion_counts preds labels = inr (a, b, c, d) ->
      (a, b, c, d) = (tn, fp, fn, tp)) /\
   Plots.value_at "Accuracy" probs labels lit_0_5
   = inr (Validate.accuracy_of tn fp fn tp) /\
   Plots.value_at "Precision" probs labels lit_0_5
   = inr (if tp + fp =? 0 then scalar_zero
          else Validate.precision_of tn fp fn tp) /\
   Plots.value_at "Recall" probs labels lit_0_5
   = inr (if tp + fn =? 0 then scalar_zero
          else Validate.sensitivity_of tn fp fn tp)) /\
  (let probs0 := repeat (F64.of_ratio 9 10) 5 in
   let labels0 := [1; 0; 1; 1; 0] in
   let preds0 := Plots.above probs0 lit_0_5 in
   valid_sweep_input probs0 labels0 = true /\
   Validate.confusion_counts preds0 labels0 = inr (0, 2, 0, 3) /\
   f1_score_binary64 (Sk.tp_sum labels0 preds0) (Sk.pred_sum preds0)
                     (Sk.true_sum labels0)
   = S754_finite false 6755399441055743 (-53) /\
   f1_of_binary64 0 2 0 3 = S754_finite false 6755399441055744 (-53)).
Proof.
  intros H.
  split; [exact threshold_half|].
  split.
  { intros i Hi Hne.
    do 99 (destruct i as [|i]; [try (vm_compute; reflexivity); lia|]). lia. }
  split.
  { destruct (plot_results_inv _ _ _ H) as [_ Hall].
    eapply Forall_impl; [|exact Hall]. intros p (r & r1 & Hp).
    destruct (plot_key_series_inv _ _ _ _ _ _ _ Hp) as (arr & Hs & Hr & _).
    destruct (sweep_values _ _ _ _ _ _ Hs) as (_ & Hval & Hr').
    rewrite Hr in Hr'. injection Hr' as Hr'. rewrite Hr'.
    rewrite <- threshold_half. apply Hval. lia. }
  split; [|repeat split; vm_compute; reflexivity].
  intros Hv preds.
  destruct (valid_sweep_input_inv _ _ Hv) as (Hlen & _ & Hl & _).
  pose proof (above_labels probs lit_0_5) as Hp. fold preds in Hp.
  assert (Hlen' : length labels = length preds).
  { unfold preds. rewrite above_length. symmetry. exact Hlen. }
  destruct (counts_partition labels preds Hlen' Hl Hp) as (P1 & P2 & P3 & P4).
  cbv zeta.
  split.
  { intros a b c d Hc.
    destruct (confusion_counts_inv _ _ _ _ _ _ Hc)
      as (_ & c0 & c1 & Hu & -> & -> & -> & ->).
    assert (Hbin : Forall (fun z => is_label z = true) (labels ++ preds))
      by (apply Forall_app; split; assumption).
    destruct (unique_labels_cases _ Hbin) as [E|[E|[E|E]]];
      unfold Sk.unique_labels in Hu; rewrite Hu in E; try discriminate.
    injection E as -> ->. reflexivity. }
  rewrite value_at_accuracy, value_at_precision, value_at_recall.
  fold preds.
  rewrite (accuracy_score_ok _ _ Hlen' Hl Hp),
    (precision_score_ok _ _ Hlen' Hl Hp), (recall_score_ok _ _ Hlen' Hl Hp).
  unfold Sk._prf_divide, Sk.tp_sum, Sk.zero_division_value.
  rewrite P1, P2, P3, P4.
  unfold Validate.accuracy_of, Validate.precision_of, Validate.sensitivity_of.
  set (c00 := Sk.count_pairs labels preds 0 0).
  set (c01 := Sk.count_pairs labels preds 0 1).
  set (c10 := Sk.count_pairs labels preds 1 0).
  set (c11 := Sk.count_pairs labels preds 1 1).
  replace (c11 + c00) with (c00 + c11) by lia.
  replace (c11 + c01 + c00 + c10) with (c00 + c01 + c10 + c11) by lia.
  replace (c11 + c01) with (c01 + c11) by lia.
  replace (c11 + c10) with (c10 + c11) by lia.
  repeat split; reflexivity.
Qed.

Lemma C4_recorded_value_at_half_witness :
  Plots.value_at "Precision" [F64.of_ratio 9 10; F64.of_ratio 2 10] [1; 0] lit_0_5
  = inr (if 1 + 0 =? 0 then scalar_zero else Validate.precision_of 1 0 0 1).
Proof.
  destruct (plot_results_valid [F64.of_ratio 9 10; F64.of_ratio 2 10] [1; 0])
    as (plots & Hplots & _); [vm_compute; reflexivity|].
  destruct (C4_recorded_value_at_half _ _ plots Hplots)
    as (_ & _ & _ & Hf & _).
  destruct (Hf ltac:(vm_compute; reflexivity)) as (_ & _ & Hprec & _).
  exact Hprec.
Defined.

(** C4 as stated fails: with probabilities 0.3 and 0.2 and true labels 0
    and 1, no sample is predicted positive at 0.5; the sweep records 0 for
    Precision, and the report of [validation_metrics] on the labels
    predicted at 0.5 holds NaN. *)
Lemma C4_counterexample :
  valid_sweep_input [F64.of_ratio 3 10; F64.of_ratio 2 10] [0; 1] = true /\
  recorded_at_half "Precision" [F64.of_ratio 3 10; F64.of_ratio 2 10] [0; 1]
  = Some (Finite 0) /\
  calculator_at_half "Precision" [F64.of_ratio 3 10; F64.of_ratio 2 10] [0; 1]
  = Some Nan.
Proof. repeat split; vm_compute; reflexivity. Qed.

(** * Further properties of the code *)

(** ** The counts of [validation_metrics] *)

Section Two_labels.

Variables c0 c1 : Z.
Hypothesis Hc : c0 <> c1.

Let two (z : Z) : Prop := z = c0 \/ z = c1.

(** On two arrays of one length over two labels, the four cells split the
    samples by true label and by predicted label. *)
Lemma cells_partition (y_true : list Z) :
  forall y_pred : list Z,
    length y_true = length y_pred ->
    Forall two y_true -> Forall two y_pred ->
    Z.of_nat (length y_true)
    = Sk.count_pairs y_true y_pred c0 c0 + Sk.count_pairs y_true y_pred c0 c1
      + Sk.count_pairs y_true y_pred c1 c0 + Sk.count_pairs y_true y_pred c1 c1
    /\ occurrences c0 y_true
       = Sk.count_pairs y_true y_pred c0 c0 + Sk.count_pairs y_true y_pred c0 c1
    /\ occurrences c1 y_true
       = Sk.count_pairs y_true y_pred c1 c0 + Sk.count_pairs y_true y_pred c1 c1
    /\ occurrences c1 y_pred
       = Sk.count_pairs y_true y_pred c0 c1 + Sk.count_pairs y_true y_pred c1 c1.
Proof.
  assert (H01 : (c0 =? c1) = false) by (apply Z.eqb_neq; exact Hc).
  assert (H10 : (c1 =? c0) = false) by (apply Z.eqb_neq; congruence).
  unfold Sk.count_pairs, occurrences.
  induction y_true as [|x y_true IH]; intros [|y y_pred] Hlen Ht Hp;
    simpl in Hlen; try discriminate.
  - repeat split; reflexivity.
  - inversion Ht as [|? ? Hx Ht']; subst. inversion Hp as [|? ? Hy Hp']; subst.
    destruct (IH y_pred ltac:(lia) Ht' Hp') as (I1 & I2 & I3 & I4).
    destruct Hx as [-> | ->]; destruct Hy as [-> | ->];
      cbn [combine filter fst snd length];
      rewrite ?Z.eqb_refl, ?H01, ?H10; cbn [andb length];
      rewrite ?Nat2Z.inj_succ; repeat split; lia.
Qed.

End Two_labels.

Section Report_ranges.

Lemma occurrences_pos (c : Z) (l : list Z) : In c l -> 0 < occurrences c l.
Proof.
  unfold occurrences. induction l as [|x l IH]; simpl; [contradiction|].
  intros [->|Hin].
  - rewrite Z.eqb_refl. simpl. lia.
  - specialize (IH Hin). destruct (c =? x); simpl; lia.
Qed.

Lemma unique_two_members (l : list Z) (a b : Z) :
  Np.unique l = [a; b] -> a < b /\ Forall (fun z => z = a \/ z = b) l
  /\ In a l /\ In b l.
Proof.
  intros Hu. pose proof (unique_sorted l) as Hs. rewrite Hu in Hs.
  inversion Hs as [|? ? _ Hab]; subst. inversion Hab as [|? ? Hlt _]; subst.
  split; [exact Hlt|]. split.
  - apply Forall_forall. intros z Hz. apply In_unique in Hz.
    rewrite Hu in Hz. simpl in Hz. intuition.
  - split; apply In_unique; rewrite Hu; simpl; auto.
Qed.

Lemma roc_auc_score_inv (labels : list Z) (probs : list float64) (auc : scalar) :
  Sk.roc_auc_score labels probs = inr auc ->
  exists a b, Np.unique labels = [a; b].
Proof.
  unfold Sk.roc_auc_score. intros H.
  destruct (Sk.check_array_labels labels) as [e|[]]; [discriminate|].
  cbn [bind] in H.
  destruct (Sk.check_array_scores probs) as [e|[]]; [discriminate|].
  cbn [bind] in H.
  destruct (Sk.type_of_target labels); [|discriminate].
  unfold Sk._binary_roc_auc_score in H.
  destruct (Np.unique labels) as [|a [|b [|c rest]]]; try discriminate.
  exists a, b. reflexivity.
Qed.

Lemma true_divide_unit (a n : Z) :
  0 <= a <= n -> 0 < n -> in_unit_range (Np.true_divide a n).
Proof.
  intros Ha Hn. rewrite true_divide_finite by lia.
  eexists. split; [reflexivity|].
  assert (Hn' : (0 < inject_Z n)%Q)
    by (change 0%Q with (inject_Z 0); rewrite <- Zlt_Qlt; exact Hn).
  rewrite !Qred_correct. split.
  - apply Qle_shift_div_l; [exact Hn'|]. rewrite Qmult_0_l.
    change 0%Q with (inject_Z 0). rewrite <- Zle_Qle. lia.
  - apply Qle_shift_div_r; [exact Hn'|]. rewrite Qmult_1_l.
    rewrite <- Zle_Qle. lia.
Qed.

Lemma true_divide_zero_numerator (n : Z) :
  n <> 0 -> Np.true_divide 0 n = scalar_zero.
Proof.
  intros Hn. rewrite true_divide_finite by exact Hn. unfold scalar_zero.
  apply f_equal. change (Qred (inject_Z 0 / inject_Z n) = Qred 0).
  apply Qred_complete.
  unfold Qdiv. apply Qmult_0_l.
Qed.

(** What an unpacked confusion matrix holds, and what a returned report
    adds: both labels occur among the true labels. *)
Lemma report_counts (preds : list Z) (probs : list float64) (labels : list Z)
  (report : Validate.dict scalar) :
  Validate.validation_metrics preds probs labels = inr report ->
  exists tn fp fn tp auc,
    Validate.confusion_counts preds labels = inr (tn, fp, fn, tp) /\
    report = [ ("Accuracy", Validate.accuracy_of tn fp fn tp);
               ("F1 Score", Validate.f1_of tn fp fn tp);
               ("Precision", Validate.precision_of tn fp fn tp);
               ("Sensitivity", Validate.sensitivity_of tn fp fn tp);
               ("Specificity", Validate.specificity_of tn fp fn tp);
               ("AUC", auc) ]%string /\
    0 <= tn /\ 0 <= fp /\ 0 <= fn /\ 0 <= tp /\
    0 < tn + fp /\ 0 < fn + tp.
Proof.
  intros H.
  destruct (validation_metrics_inv _ _ _ _ H)
    as (tn & fp & fn & tp & auc & Hcnt & Hauc & ->).
  exists tn, fp, fn, tp, auc. split; [exact Hcnt|]. split; [reflexivity|].
  destruct (confusion_counts_inv _ _ _ _ _ _ Hcnt)
    as (Hlen & c0 & c1 & Hu & -> & -> & -> & ->).
  repeat (split; [apply count_pairs_nonneg|]).
  destruct (unique_two_members _ _ _ Hu) as (Hlt & Hall & _ & _).
  apply Forall_app in Hall. destruct Hall as [Hl Hp].
  destruct (roc_auc_score_inv _ _ _ Hauc) as (a & b & Hab).
  destruct (unique_two_members _ _ _ Hab) as (Hlt' & _ & Ia & Ib).
  rewrite Forall_forall in Hl.
  assert (a = c0 /\ b = c1) as [-> ->].
  { destruct (Hl a Ia) as [-> | ->]; destruct (Hl b Ib) as [-> | ->];
      split; try reflexivity; lia. }
  destruct (cells_partition c0 c1 ltac:(lia) labels preds ltac:(congruence)
              ltac:(apply Forall_forall; exact Hl) Hp) as (_ & P0 & P1 & _).
  pose proof (occurrences_pos c0 labels Ia). pose proof (occurrences_pos c1 labels Ib).
  lia.
Qed.

End Report_ranges.

(** X1. Whenever line 35 unpacks the confusion matrix, the four counts are
    non-negative and add up to the number of samples. *)
Theorem X1_counts_add_up_to_N (preds labels : list Z) (tn fp fn tp : Z) :
  Validate.confusion_counts preds labels = inr (tn, fp, fn, tp) ->
  0 <= tn /\ 0 <= fp /\ 0 <= fn /\ 0 <= tp /\
  tn + fp + fn + tp = Z.of_nat (length labels).
Proof.
  intros H.
  destruct (confusion_counts_inv _ _ _ _ _ _ H)
    as (Hlen & c0 & c1 & Hu & -> & -> & -> & ->).
  repeat (split; [apply count_pairs_nonneg|]).
  destruct (unique_two_members _ _ _ Hu) as (Hlt & Hall & _ & _).
  apply Forall_app in Hall. destruct Hall as [Hl Hp].
  destruct (cells_partition c0 c1 ltac:(lia) labels preds ltac:(congruence) Hl Hp)
    as (HN & _).
  lia.
Qed.

Lemma X1_counts_add_up_to_N_witness :
  0 <= 1 /\ 0 <= 0 /\ 0 <= 1 /\ 0 <= 3 /\
  1 + 0 + 1 + 3 = Z.of_nat (length [1; 1; 1; 1; 0]).
Proof.
  apply (X1_counts_add_up_to_N [1; 1; 1; 0; 0] [1; 1; 1; 1; 0] 1 0 1 3).
  vm_compute. reflexivity.
Defined.

(** X2. In every report that [validation_metrics] returns, Accuracy,
    F1 Score, Sensitivity and Specificity are numbers between 0 and 1, and
    Precision is either NaN, exactly when no sample is predicted in the
    positive class (tp + fp = 0), or a number between 0 and 1. *)
Theorem X2_report_values_in_unit_range
  (preds : list Z) (probs : list float64) (labels : list Z)
  (report : Validate.dict scalar) :
  Validate.validation_metrics preds probs labels = inr report ->
  (exists v, Validate.lookup "Accuracy" report = Some v /\ in_unit_range v) /\
  (exists v, Validate.lookup "F1 Score" report = Some v /\ in_unit_range v) /\
  (exists v, Validate.lookup "Sensitivity" report = Some v /\ in_unit_range v) /\
  (exists v, Validate.lookup "Specificity" report = Some v /\ in_unit_range v) /\
  (exists v tn fp fn tp,
     Validate.lookup "Precision" report = Some v /\
     Validate.confusion_counts preds labels = inr (tn, fp, fn, tp) /\
     ((tp + fp = 0 /\ v = Nan) \/ (0 < tp + fp /\ in_unit_range v))).
Proof.
  intros H.
  destruct (report_counts _ _ _ _ H)
    as (tn & fp & fn & tp & auc & Hcnt & -> & Htn & Hfp & Hfn & Htp & Hneg & Hpos).
  unfold Validate.accuracy_of, Validate.f1_of, Validate.sensitivity_of,
    Validate.specificity_of, Validate.precision_of.
  split; [eexists; split; [reflexivity | apply true_divide_unit; lia]|].
  split; [eexists; split; [reflexivity | apply true_divide_unit; lia]|].
  split; [eexists; split; [reflexivity | apply true_divide_unit; lia]|].
  split; [eexists; split; [reflexivity | apply true_divide_unit; lia]|].
  exists (Np.true_divide tp (tp + fp)), tn, fp, fn, tp.
  split; [reflexivity|]. split; [exact Hcnt|].
  destruct (Z.eq_dec (tp + fp) 0) as [Hz|Hnz].
  - left. split; [exact Hz|].
    assert (tp = 0) by lia. assert (fp = 0) by lia. subst. reflexivity.
  - right. split; [lia | apply true_divide_unit; lia].
Qed.

Lemma X2_report_values_in_unit_range_witness :
  exists v, Validate.lookup "Accuracy"
              [ ("Accuracy", Finite (1 # 2)); ("F1 Score", Finite 0);
                ("Precision", Nan); ("Sensitivity", Finite 0);
                ("Specificity", Finite 1); ("AUC", Finite 1) ]%string = Some v
            /\ in_unit_range v.
Proof.
  apply (X2_report_values_in_unit_range
           [0; 0] [F64.of_ratio 2 10; F64.of_ratio 9 10] [0; 1]).
  vm_compute. reflexivity.
Defined.

Section Complement.

Lemma count_pairs_complement_diagonal (l : list Z) (a : Z) :
  Sk.count_pairs l (map (fun z => 1 - z) l) a a = 0.
Proof.
  unfold Sk.count_pairs. induction l as [|x l IH];
    cbn [combine map filter fst snd length]; [reflexivity|].
  destruct (Z.eqb_spec x a) as [->|Hx]; cbn [andb]; [|exact IH].
  destruct (Z.eqb_spec (1 - a) a) as [E|_]; [lia | exact IH].
Qed.

Lemma count_pairs_complement_pos (l : list Z) (a : Z) :
  In a l -> 0 < Sk.count_pairs l (map (fun z => 1 - z) l) a (1 - a).
Proof.
  unfold Sk.count_pairs. induction l as [|x l IH];
    cbn [combine map filter fst snd length In]; [contradiction|].
  intros [->|Hin].
  - rewrite !Z.eqb_refl. cbn [andb length]. lia.
  - specialize (IH Hin).
    destruct ((x =? a) && (1 - x =? 1 - a)); cbn [length]; lia.
Qed.

End Complement.

(** X3. On a valid input whose true labels hold both classes and whose
    predicted labels are the complement 1 - label at every index,
    [validation_metrics] returns a report in which Accuracy, F1 Score,
    Precision, Sensitivity and Specificity are all 0. *)
Theorem X3_complement_scores_zero
  (preds : list Z) (probs : list float64) (labels : list Z) :
  valid_input preds probs labels = true ->
  preds = map (fun z => 1 - z) labels ->
  In 0 labels -> In 1 labels ->
  exists report,
    Validate.validation_metrics preds probs labels = inr report /\
    Validate.lookup "Accuracy" report = Some scalar_zero /\
    Validate.lookup "F1 Score" report = Some scalar_zero /\
    Validate.lookup "Precision" report = Some scalar_zero /\
    Validate.lookup "Sensitivity" report = Some scalar_zero /\
    Validate.lookup "Specificity" report = Some scalar_zero.
Proof.
  intros Hv Hpreds H0 H1. unfold valid_input in Hv.
  repeat (apply andb_prop in Hv; destruct Hv as [Hv ?]).
  assert (Hl : Forall (fun z => is_label z = true) labels)
    by (apply Forall_forall, forallb_forall; assumption).
  assert (Hp : Forall (fun z => is_label z = true) preds)
    by (apply Forall_forall, forallb_forall; assumption).
  assert (Hlen : length probs = length labels) by (apply Nat.eqb_eq; assumption).
  assert (Hlen' : length preds = length labels) by (apply Nat.eqb_eq; assumption).
  destruct (roc_auc_score_two_classes labels probs Hl H0 H1 Hlen)
    as [auc Hauc]; [assumption|].
  assert (Hu : Sk.unique_labels labels preds = [0; 1]).
  { apply unique_zero_one.
    - apply Forall_app; split; assumption.
    - apply in_or_app; left; assumption.
    - apply in_or_app; left; assumption. }
  unfold Validate.validation_metrics.
  rewrite (confusion_counts_two preds labels 0 1 Hlen' Hu). cbn [bind].
  rewrite Hauc. cbn [bind]. subst preds.
  rewrite !count_pairs_complement_diagonal.
  pose proof (count_pairs_complement_pos labels 0 H0) as Hn0.
  pose proof (count_pairs_complement_pos labels 1 H1) as Hn1.
  change (1 - 0) with 1 in Hn0. change (1 - 1) with 0 in Hn1.
  set (n01 := Sk.count_pairs labels (map (fun z => 1 - z) labels) 0 1) in *.
  set (n10 := Sk.count_pairs labels (map (fun z => 1 - z) labels) 1 0) in *.
  unfold Validate.accuracy_of, Validate.precision_of, Validate.sensitivity_of,
    Validate.specificity_of, Validate.f1_of.
  change (2 * 0) with 0. change (0 + 0) with 0.
  rewrite !true_divide_zero_numerator by lia.
  eexists. split; [reflexivity|]. repeat split; reflexivity.
Qed.

Lemma X3_complement_scores_zero_witness :
  exists report,
    Validate.validation_metrics [0; 1] [F64.of_ratio 9 10; F64.of_ratio 1 10] [1; 0]
    = inr report /\
    Validate.lookup "Accuracy" report = Some scalar_zero /\
    Validate.lookup "F1 Score" report = Some scalar_zero /\
    Validate.lookup "Precision" report = Some scalar_zero /\
    Validate.lookup "Sensitivity" report = Some scalar_zero /\
    Validate.lookup "Specificity" report = Some scalar_zero.
Proof.
  apply (X3_complement_scores_zero
           [0; 1] [F64.of_ratio 9 10; F64.of_ratio 1 10] [1; 0]).
  - vm_compute. reflexivity.
  - reflexivity.
  - simpl. auto.
  - simpl. auto.
Defined.

(** ** Further properties of the sweep *)

Section Sweep_more.

Variable probs : list float64.
Variable labels : list Z.

(** What a returned plot is made of. *)
Lemma plot_values (plots : list Plots.plot_call) (p : Plots.plot_call) :
  Plots.plot_results_above_threshold probs labels = inr plots ->
  In p plots ->
  exists arr,
    length arr = 99%nat /\
    (forall i, (i < 99)%nat ->
       Plots.value_at (Plots.plot_key p) probs labels (nth i threshold S754_nan)
       = inr (nth i arr Nan)) /\
    Plots.plot_x p = Np.select threshold (map scalar_nonzero arr) /\
    Plots.plot_y p = Np.select arr (map scalar_nonzero arr) /\
    Plots.plot_result p = nth 49 arr Nan.
Proof.
  intros H Hin. destruct (plot_results_inv _ _ _ H) as [_ Hall].
  rewrite Forall_forall in Hall. destruct (Hall p Hin) as (r & r1 & Hp).
  destruct (plot_key_series_inv _ _ _ _ _ _ _ Hp) as (arr & Hs & Hr & _ & Hx & Hy).
  destruct (sweep_values _ _ _ _ _ _ Hs) as (Hlen & Hval & Hr').
  exists arr. repeat split; try assumption.
  rewrite Hr in Hr'. injection Hr' as Hr'. exact Hr'.
Qed.

Lemma set_wise_inv (y_true y_pred : list Z) (num den : Z)
  (zd : Sk.zero_division) (v : scalar) :
  (Sk._check_set_wise_labels y_true y_pred ;;;
   ret (Sk._prf_divide num den zd)) = inr v ->
  v = Sk._prf_divide num den zd.
Proof.
  destruct (Sk._check_set_wise_labels y_true y_pred) as [e|[]];
    cbn [bind ret]; intros H; [discriminate|]. injection H as <-. reflexivity.
Qed.

Lemma sum_above_nonneg (thr : float64) : 0 <= Np.sum (Plots.above probs thr).
Proof.
  induction probs as [|p ps IH]; simpl; [unfold Np.sum; simpl; lia|].
  rewrite sum_cons. destruct (F64.gtb p thr); lia.
Qed.

(** Raising the threshold cannot add a true positive. *)
Lemma tp_above_antitone (t1 t2 : float64) :
  F64.leb t1 t2 = true ->
  Sk.tp_sum labels (Plots.above probs t2) <= Sk.tp_sum labels (Plots.above probs t1).
Proof.
  intros Hle. unfold Sk.tp_sum, Sk.count_pairs.
  apply inj_le. revert labels.
  induction probs as [|p ps IH]; intros [|x ls];
    cbn [Plots.above map combine filter length]; try lia.
  specialize (IH ls). fold (Plots.above ps t1) in *. fold (Plots.above ps t2) in *.
  cbn [fst snd].
  destruct (F64.gtb p t2) eqn:H2.
  - rewrite (leb_gtb_trans t1 t2 p Hle H2).
    destruct ((x =? 1) && (1 =? 1)); cbn [length]; lia.
  - replace ((x =? 1) && (0 =? 1)) with false by (rewrite andb_false_r; reflexivity).
    destruct (F64.gtb p t1);
      destruct ((x =? 1) && (_ =? 1)); cbn [length]; lia.
Qed.

Lemma tp_sum_nonneg (y_true y_pred : list Z) : 0 <= Sk.tp_sum y_true y_pred.
Proof. apply count_pairs_nonneg. Qed.

Lemma tp_sum_le_true_sum (y_true y_pred : list Z) :
  Sk.tp_sum y_true y_pred <= Sk.true_sum y_true.
Proof.
  unfold Sk.tp_sum, Sk.count_pairs, Sk.true_sum. apply inj_le.
  revert y_pred. induction y_true as [|x ys IH]; intros [|y yp];
    cbn [combine filter length fst snd]; try lia.
  specialize (IH yp).
  destruct (Z.eqb_spec x 1) as [->|Hx].
  - rewrite Z.eqb_refl. destruct (y =? 1); cbn [andb length]; lia.
  - rewrite (proj2 (Z.eqb_neq 1 x)) by congruence. cbn [andb]. exact IH.
Qed.

Lemma tp_sum_no_positive (y_pred : list Z) :
  ~ In 1 labels -> Sk.tp_sum labels y_pred = 0.
Proof.
  unfold Sk.tp_sum, Sk.count_pairs. intros Hno. revert y_pred.
  induction labels as [|x ls IH]; intros [|y yp];
    cbn [combine filter length fst snd]; try reflexivity.
  rewrite (proj2 (Z.eqb_neq x 1)) by (intros ->; apply Hno; left; reflexivity).
  cbn [andb]. apply IH. intros Hin. apply Hno. right. exact Hin.
Qed.

End Sweep_more.

(** X4. In the array the sweep fills for "Recall", a value at a later
    threshold is never above a value at an earlier one. *)
Theorem X4_recall_non_increasing
  (probs : list float64) (labels : list Z) (r r' : option scalar)
  (arr : list scalar) (i j : nat) :
  Plots.sweep "Recall" threshold probs labels r = inr (arr, r') ->
  (i <= j < 99)%nat ->
  scalar_le (nth j arr Nan) (nth i arr Nan).
Proof.
  intros H Hij.
  destruct (sweep_values _ _ _ _ _ _ H) as (_ & Hval & _).
  pose proof (Hval i ltac:(lia)) as Hi. pose proof (Hval j ltac:(lia)) as Hj.
  rewrite value_at_recall in Hi, Hj. unfold Sk.recall_score in Hi, Hj.
  apply set_wise_inv in Hi. apply set_wise_inv in Hj. rewrite Hi, Hj.
  unfold Sk._prf_divide.
  pose proof (tp_sum_le_true_sum labels (Plots.above probs (nth i threshold S754_nan))).
  pose proof (tp_sum_nonneg labels (Plots.above probs (nth i threshold S754_nan))).
  destruct (Z.eqb_spec (Sk.true_sum labels) 0) as [Hz|Hnz].
  - simpl. apply Qle_refl.
  - apply true_divide_monotone; [|lia].
    destruct (Nat.eq_dec i j) as [->|Hne]; [lia|].
    apply tp_above_antitone, ltb_leb, threshold_increasing. lia.
Qed.

Lemma X4_recall_non_increasing_witness :
  scalar_le (Finite 0) (Finite 1).
Proof.
  apply (X4_recall_non_increasing
           [F64.of_ratio 3 10; F64.of_ratio 7 10] [0; 1] None
           (Some (Finite 1))
           (repeat (Finite 1) 69 ++ repeat (Finite 0) 30) 10 80).
  - vm_compute. reflexivity.
  - lia.
Defined.

Section Prefix.

Lemma select_all_zero {A} (a : list A) (arr : list scalar) :
  Forall (fun v => scalar_nonzero v = false) arr ->
  Np.select a (map scalar_nonzero arr) = [].
Proof.
  intros H. revert a. induction H as [|v arr Hv H IH]; intros [|x a];
    simpl; try reflexivity.
  rewrite Hv. apply IH.
Qed.

(** When a zero value is only followed by zero values, the mask keeps an
    initial segment. *)
Lemma select_prefix {A} (a : list A) :
  forall arr : list scalar,
    length a = length arr ->
    (forall i j, (i <= j < length arr)%nat ->
       scalar_nonzero (nth j arr Nan) = true ->
       scalar_nonzero (nth i arr Nan) = true) ->
    exists k, Np.select a (map scalar_nonzero arr) = firstn k a.
Proof.
  induction a as [|x a IH]; intros [|v arr] Hlen Hmono;
    simpl in Hlen; try discriminate.
  - exists O. reflexivity.
  - cbn [map Np.select]. destruct (scalar_nonzero v) eqn:Hv.
    + destruct (IH arr ltac:(lia)) as [k Hk].
      { intros i j Hij Hj. apply (Hmono (S i) (S j)); [simpl; lia | exact Hj]. }
      exists (S k). simpl. rewrite Hk. reflexivity.
    + exists O. simpl. apply select_all_zero.
      apply Forall_forall. intros w Hw.
      destruct (In_nth _ _ Nan Hw) as (j & Hj & <-).
      destruct (scalar_nonzero (nth j arr Nan)) eqn:Hnz; [|reflexivity].
      specialize (Hmono O (S j) ltac:(simpl; lia) Hnz). simpl in Hmono.
      congruence.
Qed.

End Prefix.

(** X5. The zero filter cannot make a hole in the plots of "Percentage of
    Samples" and of "Recall": the thresholds plotted for these two keys are
    an initial segment 0.01, 0.02, ... of the 99 thresholds. *)
Theorem X5_percentage_and_recall_plots_are_prefixes
  (probs : list float64) (labels : list Z) (plots : list Plots.plot_call)
  (p : Plots.plot_call) :
  Plots.plot_results_above_threshold probs labels = inr plots ->
  In p plots ->
  Plots.plot_key p = "Percentage of Samples"%string
  \/ Plots.plot_key p = "Recall"%string ->
  exists k, Plots.plot_x p = firstn k threshold.
Proof.
  intros H Hin Hkey.
  destruct (plot_values _ _ _ _ H Hin) as (arr & Hlen & Hval & Hx & _).
  rewrite Hx. apply select_prefix; [rewrite Hlen; reflexivity|].
  rewrite Hlen. intros i j Hij.
  pose proof (Hval i ltac:(lia)) as Hi. pose proof (Hval j ltac:(lia)) as Hj.
  assert (Hle : F64.leb (nth i threshold S754_nan) (nth j threshold S754_nan)
                = true \/ i = j).
  { destruct (Nat.eq_dec i j) as [->|Hne]; [right; reflexivity|].
    left. apply ltb_leb, threshold_increasing. lia. }
  destruct Hkey as [Hk|Hk]; rewrite Hk in Hi, Hj.
  - rewrite value_at_percentage in Hi, Hj.
    apply sum_over_len_above in Hi. apply sum_over_len_above in Hj.
    destruct Hi as [Hn ->]. destruct Hj as [_ ->].
    rewrite !true_divide_nonzero by lia.
    pose proof (sum_above_nonneg probs (nth j threshold S754_nan)) as H0.
    destruct Hle as [Hle| ->]; [|tauto].
    pose proof (sum_above_antitone probs _ _ Hle) as Hanti.
    intros Hnz. apply negb_true_iff, Z.eqb_neq in Hnz.
    apply negb_true_iff, Z.eqb_neq. lia.
  - rewrite value_at_recall in Hi, Hj. unfold Sk.recall_score in Hi, Hj.
    apply set_wise_inv in Hi. apply set_wise_inv in Hj. rewrite Hi, Hj.
    unfold Sk._prf_divide.
    destruct (Z.eqb_spec (Sk.true_sum labels) 0) as [Hz|Hnz]; [tauto|].
    rewrite !true_divide_nonzero by exact Hnz.
    pose proof (tp_sum_nonneg labels (Plots.above probs (nth j threshold S754_nan)))
      as H0.
    destruct Hle as [Hle| ->]; [|tauto].
    pose proof (tp_above_antitone probs labels _ _ Hle) as Hanti.
    intros Hnz'. apply negb_true_iff, Z.eqb_neq in Hnz'.
    apply negb_true_iff, Z.eqb_neq. lia.
Qed.

Lemma X5_percentage_and_recall_plots_are_prefixes_witness :
  exists plots p k,
    Plots.plot_results_above_threshold
      [F64.of_ratio 3 10; F64.of_ratio 2 10] [0; 1] = inr plots /\
    In p plots /\ Plots.plot_key p = "Recall"%string /\
    Plots.plot_x p = firstn k threshold.
Proof.
  destruct (plot_results_valid [F64.of_ratio 3 10; F64.of_ratio 2 10] [0; 1])
    as (plots & Hplots & Hkeys); [vm_compute; reflexivity|].
  destruct plots as [|p0 [|p1 [|p2 [|p3 rest]]]]; try discriminate Hkeys.
  assert (Hk : Plots.plot_key p3 = "Recall"%string)
    by (simpl in Hkeys; congruence).
  destruct (X5_percentage_and_recall_plots_are_prefixes
              _ _ _ p3 Hplots ltac:(simpl; auto) (or_intror Hk)) as [k Hx].
  exists (p0 :: p1 :: p2 :: p3 :: rest), p3, k.
  repeat split; try assumption. simpl; auto.
Defined.

(** X6. When no true label is 1, every value the sweep stores for
    Precision, Recall and F1 Score is 0: the three plots are empty and the
    value recorded at 0.5 is 0. *)
Theorem X6_no_positive_label_empty_plots
  (probs : list float64) (labels : list Z) (plots : list Plots.plot_call)
  (p : Plots.plot_call) :
  Plots.plot_results_above_threshold probs labels = inr plots ->
  ~ In 1 labels ->
  In p plots ->
  Plots.plot_key p = "Precision"%string \/ Plots.plot_key p = "Recall"%string
  \/ Plots.plot_key p = "F1 Score"%string ->
  Plots.plot_x p = [] /\ Plots.plot_y p = [] /\
  Plots.plot_result p = scalar_zero.
Proof.
  intros H Hno Hin Hkey.
  destruct (plot_values _ _ _ _ H Hin) as (arr & Hlen & Hval & Hx & Hy & Hr).
  assert (Hzero : forall i, (i < 99)%nat -> nth i arr Nan = scalar_zero).
  { intros i Hi. specialize (Hval i Hi).
    assert (Hdiv : forall den, Sk._prf_divide 0 den Sk.ZD_0 = scalar_zero).
    { intros den. unfold Sk._prf_divide.
      destruct (Z.eqb_spec den 0); [reflexivity|].
      apply true_divide_zero_numerator; assumption. }
    destruct Hkey as [Hk|[Hk|Hk]]; rewrite Hk in Hval.
    - rewrite value_at_precision in Hval. unfold Sk.precision_score in Hval.
      apply set_wise_inv in Hval. rewrite Hval, tp_sum_no_positive by exact Hno.
      apply Hdiv.
    - rewrite value_at_recall in Hval. unfold Sk.recall_score in Hval.
      apply set_wise_inv in Hval. rewrite Hval, tp_sum_no_positive by exact Hno.
      apply Hdiv.
    - rewrite value_at_f1 in Hval. unfold Sk.f1_score in Hval.
      apply set_wise_inv in Hval. rewrite Hval, tp_sum_no_positive by exact Hno.
      apply Hdiv. }
  assert (Hall : Forall (fun v => scalar_nonzero v = false) arr).
  { apply Forall_forall. intros v Hv.
    destruct (In_nth _ _ Nan Hv) as (i & Hi & <-).
    rewrite Hzero by lia. reflexivity. }
  rewrite Hx, Hy, Hr, !select_all_zero by exact Hall.
  rewrite Hzero by lia. repeat split; reflexivity.
Qed.

Lemma X6_no_positive_label_empty_plots_witness :
  exists plots p,
    Plots.plot_results_above_threshold
      [F64.of_ratio 3 10; F64.of_ratio 2 10] [0; 0] = inr plots /\
    In p plots /\ Plots.plot_key p = "Precision"%string /\
    Plots.plot_x p = [] /\ Plots.plot_y p = [] /\
    Plots.plot_result p = scalar_zero.
Proof.
  destruct (plot_results_valid [F64.of_ratio 3 10; F64.of_ratio 2 10] [0; 0])
    as (plots & Hplots & Hkeys); [vm_compute; reflexivity|].
  destruct plots as [|p0 [|p1 [|p2 rest]]]; try discriminate Hkeys.
  assert (Hk : Plots.plot_key p2 = "Precision"%string)
    by (simpl in Hkeys; congruence).
  exists (p0 :: p1 :: p2 :: rest), p2.
  split; [exact Hplots|]. split; [simpl; auto|]. split; [exact Hk|].
  apply (X6_no_positive_label_empty_plots _ _ _ p2 Hplots).
  - simpl. intros [E|[E|[]]]; discriminate.
  - simpl. auto.
  - left. exact Hk.
Defined.

(** ** Why the sweep can fail *)

Section Sweep_errors.

Variable probs : list float64.
Variable labels : list Z.

Lemma mapM_err_inv {X Y} (g : X -> res Y) (xs : list X) (e : exn) :
  mapM g xs = inl e -> exists x, In x xs /\ g x = inl e.
Proof.
  induction xs as [|x xs IH]; simpl; intros H; [discriminate|].
  destruct (g x) as [e'|y] eqn:Hg.
  - injection H as <-. exists x. split; [left; reflexivity | exact Hg].
  - cbn [bind] in H. destruct (mapM g xs) as [e'|ys]; [|discriminate].
    injection H as <-. destruct (IH eq_refl) as (x' & Hin & Hx').
    exists x'. split; [right; exact Hin | exact Hx'].
Qed.

Lemma plot_key_series_err (key : string) (r : option scalar) (e : exn) :
  Plots.plot_key_series key threshold probs labels r = inl e ->
  exists thr, Plots.value_at key probs labels thr = inl e.
Proof.
  unfold Plots.plot_key_series. intros H.
  destruct (Plots.sweep key threshold probs labels r) as [e'|[arr r1]] eqn:Hs.
  - injection H as <-. rewrite sweep_spec in Hs.
    destruct (mapM (Plots.value_at key probs labels) threshold) as [e1|vals] eqn:Hm;
      [|discriminate].
    injection Hs as <-. destruct (mapM_err_inv _ _ _ Hm) as (thr & _ & Hthr).
    exists thr. exact Hthr.
  - destruct (sweep_values _ _ _ _ _ _ Hs) as (_ & _ & ->).
    cbn [bind] in H. discriminate.
Qed.

Lemma outer_loop_err (ks : list string) :
  forall (st : list Plots.plot_call * option scalar) (e : exn),
    foldM (Plots.outer_body threshold probs labels) ks st = inl e ->
    exists key thr, In key ks /\ Plots.value_at key probs labels thr = inl e.
Proof.
  induction ks as [|key ks IH]; intros [plots0 r0] e H; [discriminate|].
  cbn [foldM Plots.outer_body] in H.
  destruct (Plots.plot_key_series key threshold probs labels r0)
    as [e'|[p r1]] eqn:Hp.
  - injection H as <-. destruct (plot_key_series_err _ _ _ Hp) as [thr Hthr].
    exists key, thr. split; [left; reflexivity | exact Hthr].
  - cbn [bind ret] in H. destruct (IH _ _ H) as (k & thr & Hin & Hthr).
    exists k, thr. split; [right; exact Hin | exact Hthr].
Qed.

Lemma check_targets_err_inv (y_true y_pred : list Z) (e : exn) :
  Sk._check_targets y_true y_pred = inl e ->
  e = ValueError_inconsistent_length /\ length y_true <> length y_pred.
Proof.
  intros H. destruct (Nat.eq_dec (length y_true) (length y_pred)) as [E|E].
  - destruct (check_targets_ok _ _ E) as [ty Hty]. congruence.
  - rewrite (check_targets_err _ _ E) in H. injection H as <-. auto.
Qed.

Lemma value_at_err (key : string) (thr : float64) (e : exn) :
  In key (Plots.keys Plots.metrics) ->
  Plots.value_at key probs labels thr = inl e ->
  (e = ZeroDivisionError /\ probs = []) \/
  (e = ValueError_inconsistent_length /\ length probs <> length labels) \/
  ((e = ValueError_multiclass \/ e = ValueError_pos_label) /\
   length probs = length labels /\
   exists z, In z labels /\ z <> 0 /\ z <> 1).
Proof.
  intros Hkey H. simpl in Hkey.
  assert (Hset : forall num den,
    (Sk._check_set_wise_labels labels (Plots.above probs thr) ;;;
     ret (Sk._prf_divide num den Sk.ZD_0)) = inl e ->
    (e = ValueError_inconsistent_length /\ length probs <> length labels) \/
    ((e = ValueError_multiclass \/ e = ValueError_pos_label) /\
     length probs = length labels /\
     exists z, In z labels /\ z <> 0 /\ z <> 1)).
  { intros num den Hs.
    destruct (Nat.eq_dec (length probs) (length labels)) as [El|El].
    - right.
      destruct (forallb is_label labels) eqn:Hb.
      + exfalso.
        rewrite (check_set_wise_labels_ok labels (Plots.above probs thr)) in Hs.
        * discriminate.
        * rewrite above_length. congruence.
        * apply Forall_forall, forallb_forall. exact Hb.
        * apply above_labels.
      + assert (Hz : exists z, In z labels /\ z <> 0 /\ z <> 1).
        { clear -Hb. induction labels as [|x ls IH]; simpl in Hb; [discriminate|].
          destruct (is_label x) eqn:Hx.
          - destruct (IH Hb) as (z & Hin & Hz). exists z. split; [right|]; assumption.
          - exists x. split; [left; reflexivity|].
            unfold is_label in Hx. apply orb_false_elim in Hx.
            destruct Hx as [H0 H1]. apply Z.eqb_neq in H0. apply Z.eqb_neq in H1.
            split; assumption. }
        split; [|split; [exact El | exact Hz]].
        unfold Sk._check_set_wise_labels in Hs.
        destruct (check_targets_ok labels (Plots.above probs thr)) as [ty Hty];
          [rewrite above_length; congruence|].
        rewrite Hty in Hs. cbn [bind] in Hs.
        destruct ty.
        * destruct (negb _ && _) in Hs; cbn [bind raise ret] in Hs;
            [injection Hs as <-; right; reflexivity | discriminate].
        * cbn [bind raise] in Hs. injection Hs as <-. left; reflexivity.
    - left. unfold Sk._check_set_wise_labels in Hs.
      rewrite check_targets_err in Hs by (rewrite above_length; congruence).
      cbn [bind] in Hs. injection Hs as <-. split; [reflexivity | exact El]. }
  destruct Hkey as [<-|[<-|[<-|[<-|[<-|[]]]]]].
  - left. rewrite value_at_percentage in H.
    destruct probs as [|p0 ps]; [|discriminate].
    simpl in H. injection H as <-. split; reflexivity.
  - right; left. rewrite value_at_accuracy in H. unfold Sk.accuracy_score in H.
    destruct (Sk._check_targets labels (Plots.above probs thr)) as [e'|ty] eqn:Ht;
      [|discriminate].
    cbn [bind] in H. injection H as <-.
    destruct (check_targets_err_inv _ _ _ Ht) as [-> Hne].
    rewrite above_length in Hne. split; [reflexivity | congruence].
  - right. rewrite value_at_precision in H. apply (Hset _ _ H).
  - right. rewrite value_at_recall in H. apply (Hset _ _ H).
  - right. rewrite value_at_f1 in H. apply (Hset _ _ H).
Qed.

End Sweep_errors.

(** X7. The sweep fails for three reasons only: no probability at all (the
    division [sum(preds)/len(probs)] raises ZeroDivisionError), probabilities
    and true labels of different lengths, or, with equal lengths, a true
    label other than 0 and 1 (which the binary scorers refuse). It never
    fails on an unbound [result], a missing key or a call of the
    placeholder string. *)
Theorem X7_sweep_fails_for_three_reasons_only
  (probs : list float64) (labels : list Z) (e : exn) :
  Plots.plot_results_above_threshold probs labels = inl e ->
  (e = ZeroDivisionError /\ probs = []) \/
  (e = ValueError_inconsistent_length /\ length probs <> length labels) \/
  ((e = ValueError_multiclass \/ e = ValueError_pos_label) /\
   length probs = length labels /\
   exists z, In z labels /\ z <> 0 /\ z <> 1).
Proof.
  unfold Plots.plot_results_above_threshold. rewrite arange_threshold.
  cbn [bind]. intros H.
  destruct (foldM (Plots.outer_body threshold probs labels)
              (Plots.keys Plots.metrics) ([], None)) as [e'|[ps r']] eqn:Hf;
    [|discriminate].
  cbn [bind] in H. injection H as <-.
  destruct (outer_loop_err _ _ _ _ _ Hf) as (key & thr & Hin & Hthr).
  eapply value_at_err; eassumption.
Qed.

Lemma X7_sweep_fails_for_three_reasons_only_witness :
  (ValueError_multiclass = ZeroDivisionError
   /\ [F64.of_ratio 3 10; F64.of_ratio 2 10] = []) \/
  (ValueError_multiclass = ValueError_inconsistent_length
   /\ length [F64.of_ratio 3 10; F64.of_ratio 2 10] <> length [0; 2]) \/
  ((ValueError_multiclass = ValueError_multiclass
    \/ ValueError_multiclass = ValueError_pos_label) /\
   length [F64.of_ratio 3 10; F64.of_ratio 2 10] = length [0; 2] /\
   exists z, In z [0; 2] /\ z <> 0 /\ z <> 1).
Proof.
  apply (X7_sweep_fails_for_three_reasons_only
           [F64.of_ratio 3 10; F64.of_ratio 2 10] [0; 2] ValueError_multiclass).
  vm_compute. reflexivity.
Defined.

(** ** [plot_confusion_matrix] *)

Section Pyplot_loops.

Lemma for_each_emit {X} (g : X -> Plt.event) (xs : list X) (tr : list Plt.event) :
  for_each xs (fun x => emit (g x)) tr = (tr ++ map g xs, inr tt).
Proof.
  revert tr. induction xs as [|x xs IH]; intros tr; simpl.
  - unfold fret. rewrite app_nil_r. reflexivity.
  - unfold fbind, emit. rewrite IH, <- app_assoc. reflexivity.
Qed.

Lemma for_each_nested {X Y} (g : X -> Y -> Plt.event) (xs : list X)
  (ys : list Y) (tr : list Plt.event) :
  for_each xs (fun x => for_each ys (fun y => emit (g x y))) tr
  = (tr ++ flat_map (fun x => map (g x) ys) xs, inr tt).
Proof.
  revert tr. induction xs as [|x xs IH]; intros tr; simpl.
  - unfold fret. rewrite app_nil_r. reflexivity.
  - unfold fbind. rewrite for_each_emit, IH, <- app_assoc. reflexivity.
Qed.

Lemma saved_app (tr1 tr2 : list Plt.event) :
  saved (tr1 ++ tr2) = saved tr1 ++ saved tr2.
Proof. unfold saved. apply flat_map_app. Qed.

Lemma texts_app (tr1 tr2 : list Plt.event) :
  texts (tr1 ++ tr2) = texts tr1 ++ texts tr2.
Proof. unfold texts. apply filter_app. Qed.

Lemma fold_max_ge (l : list Z) :
  forall x, x <= fold_left Z.max l x /\
            forall y, In y l -> y <= fold_left Z.max l x.
Proof.
  induction l as [|a l IH]; intros x; simpl.
  - split; [lia | contradiction].
  - destruct (IH (Z.max x a)) as [H1 H2]. split; [lia|].
    intros y [->|Hy]; [lia | apply H2, Hy].
Qed.

Lemma fold_max_in (l : list Z) : forall x, In (fold_left Z.max l x) (x :: l).
Proof.
  induction l as [|a l IH]; intros x; simpl.
  - left; reflexivity.
  - destruct (IH (Z.max x a)) as [E|Hin].
    + destruct (Z.max_spec x a) as [[_ Hm]|[_ Hm]]; [right; left | left];
        rewrite <- E; symmetry; exact Hm.
    + right; right; exact Hin.
Qed.

Lemma gt_scalar_half (v m : Z) :
  Figures.gt_scalar v (Np.true_divide m 2) = true <-> m < 2 * v.
Proof.
  rewrite true_divide_finite by lia. unfold Figures.gt_scalar.
  rewrite negb_true_iff, <- not_true_iff_false, Qle_bool_iff, Qred_correct.
  assert (E : (inject_Z m / inject_Z 2 == m # 2)%Q).
  { unfold Qeq, Qdiv, Qmult, Qinv, inject_Z. cbn [Qnum Qden]. simpl. lia. }
  rewrite E. unfold Qle, inject_Z. cbn [Qnum Qden]. lia.
Qed.

Lemma grid_all_texts {X Y} (g : X -> Y -> Plt.event) (rows : list X)
  (cols : list Y) :
  (forall i j, exists x y v c, g i j = Plt.text x y v c) ->
  Forall (fun e => exists x y v c, e = Plt.text x y v c)
         (flat_map (fun i => map (g i) cols) rows).
Proof.
  intros Hg. apply Forall_forall. intros e He.
  apply in_flat_map in He. destruct He as (i & _ & He).
  apply in_map_iff in He. destruct He as (j & <- & _). apply Hg.
Qed.

Lemma only_texts (evs : list Plt.event) :
  Forall (fun e => exists x y v c, e = Plt.text x y v c) evs ->
  saved evs = [] /\ texts evs = evs.
Proof.
  induction 1 as [|e evs (x & y & v & c & ->) _ [IH1 IH2]].
  - split; reflexivity.
  - unfold saved, texts in *. simpl. rewrite IH1, IH2. split; reflexivity.
Qed.

Lemma length_grid {X Y} (g : X -> Y -> Plt.event) (rows : list X) (cols : list Y) :
  length (flat_map (fun i => map (g i) cols) rows)
  = (length rows * length cols)%nat.
Proof.
  induction rows as [|i rows IH]; simpl; [reflexivity|].
  rewrite length_app, length_map, IH. reflexivity.
Qed.

End Pyplot_loops.

Section Confusion_plot.

Variables preds labels : list Z.
Variables (classes : list string) (path : string).

(** The matrix the function draws. *)
Let L := Sk.unique_labels labels preds.
Let cm := map (fun a => map (fun b => Sk.count_pairs labels preds a b) L) L.

Lemma unique_labels_nonempty : labels <> [] -> L <> [].
Proof.
  intros Hne HL.
  assert (Hin : exists z, In z L).
  { assert (Hx : exists z, In z labels).
    { clear -Hne. generalize dependent labels. intros [|z l] Hz;
        [contradiction | exists z; left; reflexivity]. }
    destruct Hx as [z Hz]. exists z.
    unfold L, Sk.unique_labels. apply In_unique, in_or_app. left; exact Hz. }
  destruct Hin as [z Hz]. rewrite HL in Hz. contradiction.
Qed.

Lemma cm_shape : Figures.shape cm = (length L, length L).
Proof.
  unfold Figures.shape, cm. rewrite length_map.
  destruct L; [reflexivity|]. simpl. rewrite length_map. reflexivity.
Qed.

(** The whole trace of a call on arrays of one length that are not empty. *)
Lemma plot_confusion_matrix_run (tr : list Plt.event) :
  length preds = length labels -> labels <> [] ->
  exists x rest,
    Sk.ravel cm = x :: rest /\
    Figures.plot_confusion_matrix preds labels classes path tr
    = (tr ++ [Plt.imshow cm;
              Plt.xticks (map Z.of_nat (seq 0 (length classes))) classes;
              Plt.yticks (map Z.of_nat (seq 0 (length classes))) classes]
          ++ flat_map (fun i =>
               map (fun j =>
                      Plt.text j i (Figures.cell cm i j)
                        (if Figures.gt_scalar (Figures.cell cm i j)
                              (Np.true_divide (fold_left Z.max rest x) 2)
                         then Plt.white else Plt.black))
                   (seq 0 (length L)))
               (seq 0 (length L))
          ++ [Plt.title "Confusion Matrix"; Plt.ylabel "True label";
              Plt.xlabel "Predicted label";
              Plt.savefig (path_join path "confusion_matrix.png"); Plt.close],
        inr tt).
Proof.
  intros Hlen Hne.
  assert (Hrav : exists x rest, Sk.ravel cm = x :: rest).
  { pose proof (unique_labels_nonempty Hne) as HL. unfold cm.
    destruct L as [|a L']; [contradiction|]. simpl. eexists _, _. reflexivity. }
  destruct Hrav as (x & rest & Hrav). exists x, rest. split; [exact Hrav|].
  unfold Figures.plot_confusion_matrix.
  unfold fbind at 1. unfold lift.
  rewrite confusion_matrix_ok by congruence. fold L. fold cm.
  unfold fbind at 1. unfold emit at 1.
  unfold fbind at 1. unfold emit at 1.
  unfold fbind at 1. unfold emit at 1.
  unfold fbind at 1. unfold Figures.cm_max. rewrite Hrav. unfold fret at 1.
  unfold fbind at 1. rewrite cm_shape. cbn [fst snd].
  rewrite for_each_nested.
  unfold fbind, emit. rewrite <- !app_assoc. reflexivity.
Qed.

End Confusion_plot.

(** X8. On predicted and true labels of one length that are not empty,
    [plot_confusion_matrix] never raises, whatever the number of classes: it
    annotates each cell of the n x n matrix once (n the number of distinct
    values in both arrays) and saves the single file confusion_matrix.png
    under [path]. *)
Theorem X8_confusion_matrix_plot_succeeds
  (preds labels : list Z) (classes : list string) (path : string) :
  length preds = length labels -> labels <> [] ->
  exists tr,
    Figures.plot_confusion_matrix preds labels classes path [] = (tr, inr tt) /\
    saved tr = [path_join path "confusion_matrix.png"] /\
    length (texts tr)
    = (length (Sk.unique_labels labels preds)
       * length (Sk.unique_labels labels preds))%nat.
Proof.
  intros Hlen Hne.
  destruct (plot_confusion_matrix_run preds labels classes path [] Hlen Hne)
    as (x & rest & _ & Hrun).
  eexists. split; [exact Hrun|].
  match goal with
  | |- context [flat_map ?F ?R] =>
      assert (Hgrid : saved (flat_map F R) = [] /\ texts (flat_map F R) = flat_map F R)
        by (apply only_texts, grid_all_texts; intros i j; eexists _, _, _, _; reflexivity);
      assert (Hlg : length (flat_map F R)
                    = (length (Sk.unique_labels labels preds)
                       * length (Sk.unique_labels labels preds))%nat)
        by (rewrite length_grid, !length_seq; reflexivity)
  end.
  destruct Hgrid as [Hg1 Hg2].
  rewrite !saved_app, !texts_app, Hg1, Hg2.
  split; [reflexivity|].
  cbn [texts filter app]. rewrite app_nil_r. exact Hlg.
Qed.

Lemma X8_confusion_matrix_plot_succeeds_witness :
  exists tr,
    Figures.plot_confusion_matrix [1; 1] [1; 1] ["No Pain"; "Pain"]%string "out" []
    = (tr, inr tt) /\
    saved tr = [path_join "out" "confusion_matrix.png"] /\
    length (texts tr)
    = (length (Sk.unique_labels [1; 1]%Z [1; 1]%Z)
       * length (Sk.unique_labels [1; 1]%Z [1; 1]%Z))%nat.
Proof.
  apply (X8_confusion_matrix_plot_succeeds
           [1; 1] [1; 1] ["No Pain"; "Pain"]%string "out").
  - reflexivity.
  - discriminate.
Defined.

Section Confusion_cells.

Variables preds labels : list Z.

Let L := Sk.unique_labels labels preds.
Let cm := map (fun a => map (fun b => Sk.count_pairs labels preds a b) L) L.

Lemma nth_map_in {X Y} (g : X -> Y) (l : list X) (i : nat) (dx : X) (dy : Y) :
  (i < length l)%nat -> nth i (map g l) dy = g (nth i l dx).
Proof.
  revert i. induction l as [|x l IH]; intros [|i] Hi; simpl in *;
    try lia; [reflexivity | apply IH; lia].
Qed.

Lemma cell_value (i j : nat) :
  (i < length L)%nat -> (j < length L)%nat ->
  Figures.cell cm i j = Sk.count_pairs labels preds (nth i L 0) (nth j L 0).
Proof.
  intros Hi Hj. unfold Figures.cell, cm.
  rewrite (nth_map_in _ L i 0 []) by exact Hi.
  apply nth_map_in. exact Hj.
Qed.

Lemma ravel_member (a b : Z) :
  In a L -> In b L -> In (Sk.count_pairs labels preds a b) (Sk.ravel cm).
Proof.
  intros Ha Hb. unfold Sk.ravel, cm. apply in_concat.
  exists (map (fun b0 => Sk.count_pairs labels preds a b0) L). split.
  - apply (in_map (fun a0 => map (fun b0 => Sk.count_pairs labels preds a0 b0) L)).
    exact Ha.
  - apply (in_map (fun b0 => Sk.count_pairs labels preds a b0)). exact Hb.
Qed.

Lemma ravel_cell (i j : nat) :
  (i < length L)%nat -> (j < length L)%nat ->
  In (Figures.cell cm i j) (Sk.ravel cm).
Proof.
  intros Hi Hj. rewrite cell_value by assumption.
  apply ravel_member; apply nth_In; assumption.
Qed.

Lemma ravel_inv (v : Z) :
  In v (Sk.ravel cm) ->
  exists i j, (i < length L)%nat /\ (j < length L)%nat /\ v = Figures.cell cm i j.
Proof.
  unfold Sk.ravel. intros H. apply in_concat in H.
  destruct H as (row & Hrow & Hv).
  unfold cm in Hrow. apply in_map_iff in Hrow. destruct Hrow as (a & <- & Ha).
  apply in_map_iff in Hv. destruct Hv as (b & <- & Hb).
  destruct (In_nth _ _ 0 Ha) as (i & Hi & <-).
  destruct (In_nth _ _ 0 Hb) as (j & Hj & <-).
  exists i, j. split; [exact Hi|]. split; [exact Hj|].
  symmetry. apply cell_value; assumption.
Qed.

(** The first sample alone puts 1 in some cell. *)
Lemma some_cell_positive :
  length preds = length labels -> labels <> [] ->
  exists v, In v (Sk.ravel cm) /\ 0 < v.
Proof.
  intros Hlen Hne.
  assert (Hs : exists l0 ls p0 ps, labels = l0 :: ls /\ preds = p0 :: ps).
  { clear L cm. generalize dependent preds. generalize dependent labels.
    intros [|l0 ls] Hne [|p0 ps] Hlen; try contradiction; try discriminate.
    exists l0, ls, p0, ps. split; reflexivity. }
  destruct Hs as (l0 & ls & p0 & ps & El & Ep).
  exists (Sk.count_pairs labels preds l0 p0). split.
  - apply ravel_member; unfold L, Sk.unique_labels; apply In_unique, in_or_app.
    + left. rewrite El. left; reflexivity.
    + right. rewrite Ep. left; reflexivity.
  - rewrite El, Ep. unfold Sk.count_pairs.
    cbn [combine filter fst snd]. rewrite !Z.eqb_refl. cbn [andb length]. lia.
Qed.

End Confusion_cells.

(** X9. In the plot of the confusion matrix a cell is annotated in white
    exactly when its count is more than half the largest count, and in black
    otherwise; the largest count is positive and its cell is white. *)
Theorem X9_confusion_matrix_cell_colours
  (preds labels : list Z) (classes : list string) (path : string) :
  length preds = length labels -> labels <> [] ->
  exists tr m,
    Figures.plot_confusion_matrix preds labels classes path [] = (tr, inr tt) /\
    0 < m /\
    (forall x y v c, In (Plt.text x y v c) tr ->
       0 <= v <= m /\ (c = Plt.white <-> m < 2 * v)) /\
    (exists x y, In (Plt.text x y m Plt.white) tr).
Proof.
  intros Hlen Hne.
  destruct (plot_confusion_matrix_run preds labels classes path [] Hlen Hne)
    as (x0 & rest & Hrav & Hrun).
  set (L := Sk.unique_labels labels preds) in *.
  set (cm := map (fun a => map (fun b => Sk.count_pairs labels preds a b) L) L) in *.
  set (m := fold_left Z.max rest x0) in *.
  assert (Hmax : forall v, In v (Sk.ravel cm) -> v <= m).
  { intros v Hv. rewrite Hrav in Hv. destruct (fold_max_ge rest x0) as [H1 H2].
    destruct Hv as [<-|Hv]; [exact H1 | apply H2, Hv]. }
  assert (Hm : 0 < m).
  { destruct (some_cell_positive preds labels Hlen Hne) as (v & Hv & Hpos).
    specialize (Hmax v Hv). lia. }
  assert (Hcol : forall v, (if Figures.gt_scalar v (Np.true_divide m 2)
                            then Plt.white else Plt.black) = Plt.white
                           <-> m < 2 * v).
  { intros v. rewrite <- gt_scalar_half.
    destruct (Figures.gt_scalar v (Np.true_divide m 2)); split; intros H;
      try reflexivity; discriminate. }
  eexists _, m. split; [exact Hrun|]. split; [exact Hm|]. split.
  - intros x y v c Hin.
    rewrite app_nil_l in Hin. apply in_app_or in Hin.
    destruct Hin as [Hin|Hin].
    { simpl in Hin. destruct Hin as [E|[E|[E|[]]]]; discriminate. }
    apply in_app_or in Hin. destruct Hin as [Hin|Hin].
    2:{ simpl in Hin. destruct Hin as [E|[E|[E|[E|[E|[]]]]]]; discriminate. }
    apply in_flat_map in Hin. destruct Hin as (i & Hi & Hin).
    apply in_map_iff in Hin. destruct Hin as (j & E & Hj).
    apply in_seq in Hi. apply in_seq in Hj.
    injection E as <- <- <- <-.
    assert (Hi' : (i < length L)%nat) by lia.
    assert (Hj' : (j < length L)%nat) by lia.
    pose proof (ravel_cell preds labels i j Hi' Hj') as Hc.
    split; [|apply Hcol].
    split; [|apply Hmax, Hc].
    rewrite (cell_value preds labels i j Hi' Hj' : Figures.cell cm i j = _).
    apply count_pairs_nonneg.
  - assert (Hmin : In m (Sk.ravel cm)) by (rewrite Hrav; apply fold_max_in).
    destruct (ravel_inv preds labels m Hmin) as (i & j & Hi & Hj & Hcell).
    exists j, i. rewrite app_nil_l. apply in_or_app. right.
    apply in_or_app. left. apply in_flat_map.
    exists i. split; [apply in_seq; split; [lia | exact Hi]|].
    apply in_map_iff. exists j. split; [|apply in_seq; split; [lia | exact Hj]].
    change (Plt.text j i (Figures.cell cm i j)
              (if Figures.gt_scalar (Figures.cell cm i j) (Np.true_divide m 2)
               then Plt.white else Plt.black) = Plt.text j i m Plt.white).
    change (m = Figures.cell cm i j) in Hcell.
    rewrite <- Hcell. rewrite (proj2 (Hcol m)) by lia. reflexivity.
Qed.

Lemma X9_confusion_matrix_cell_colours_witness :
  exists tr m,
    Figures.plot_confusion_matrix [1; 1; 1; 0; 0] [1; 1; 1; 1; 0]
      ["No Pain"; "Pain"]%string "out" [] = (tr, inr tt) /\
    0 < m /\
    (forall x y v c, In (Plt.text x y v c) tr ->
       0 <= v <= m /\ (c = Plt.white <-> m < 2 * v)) /\
    (exists x y, In (Plt.text x y m Plt.white) tr).
Proof.
  apply (X9_confusion_matrix_cell_colours
           [1; 1; 1; 0; 0] [1; 1; 1; 1; 0] ["No Pain"; "Pain"]%string "out").
  - reflexivity.
  - discriminate.
Defined.

(** X10. [plot_confusion_matrix] raises before any call into pyplot when
    the two arrays differ in length, and on two empty arrays it raises
    without having saved a file. *)
Theorem X10_confusion_matrix_plot_errors
  (preds labels : list Z) (classes : list string) (path : string) :
  (length preds <> length labels ->
   Figures.plot_confusion_matrix preds labels classes path []
   = ([], inl (Raised ValueError_inconsistent_length))) /\
  (exists tr e,
     Figures.plot_confusion_matrix [] [] classes path [] = (tr, inl e) /\
     saved tr = []).
Proof.
  split.
  - intros Hne. unfold Figures.plot_confusion_matrix, fbind, lift.
    rewrite confusion_matrix_err by congruence. reflexivity.
  - exists [Plt.imshow [];
            Plt.xticks (map Z.of_nat (seq 0 (length classes))) classes;
            Plt.yticks (map Z.of_nat (seq 0 (length classes))) classes],
      ValueError_zero_size.
    split; reflexivity.
Qed.

Lemma X10_confusion_matrix_plot_errors_witness :
  Figures.plot_confusion_matrix [1; 0] [1] ["No Pain"; "Pain"]%string "out" []
  = ([], inl (Raised ValueError_inconsistent_length)).
Proof.
  apply (proj1 (X10_confusion_matrix_plot_errors
                  [1; 0] [1] ["No Pain"; "Pain"]%string "out")).
  simpl. lia.
Defined.

(** ** The sweep and its pyplot calls *)

Section Sweep_figures.

Variable probs : list float64.
Variable labels : list Z.
Variable path : string.
Variable thrs : list float64.

Let body := fun (result : option scalar) (key : string) =>
  '(p, result) <~ lift (Plots.plot_key_series key thrs probs labels result) ;;
  Figures.draw path p ;;~
  fret result.

Let file := fun p : Plots.plot_call =>
  path_join path (Plots.plot_key p ++ ".png")%string.

Let curve := fun p : Plots.plot_call =>
  Plt.plot (Plt.Doubles (Plots.plot_x p)) (Plt.Scalars (Plots.plot_y p))
    (Plots.plot_key p ++ " at 0.5 = ")%string (Plots.plot_result p).

Lemma draw_run (p : Plots.plot_call) (tr : list Plt.event) :
  exists evs,
    Figures.draw path p tr = (tr ++ evs, inr tt) /\
    saved evs = [file p] /\ drawn evs = [curve p].
Proof.
  eexists. split.
  - unfold Figures.draw, fbind, emit. rewrite <- !app_assoc. reflexivity.
  - split; reflexivity.
Qed.

Lemma drawn_app (tr1 tr2 : list Plt.event) :
  drawn (tr1 ++ tr2) = drawn tr1 ++ drawn tr2.
Proof. unfold drawn. apply filter_app. Qed.

(** The loop over the keys when no key fails. *)
Lemma figures_loop_ok (ks : list string) :
  forall (plots0 plots : list Plots.plot_call) (r0 r' : option scalar)
         (tr : list Plt.event),
    foldM (Plots.outer_body thrs probs labels) ks (plots0, r0) = inr (plots, r') ->
    exists new evs,
      plots = plots0 ++ new /\
      for_fold ks body r0 tr = (tr ++ evs, inr r') /\
      saved evs = map file new /\ drawn evs = map curve new.
Proof.
  induction ks as [|key ks IH]; intros plots0 plots r0 r' tr H.
  - simpl in H. unfold ret in H. injection H as <- <-.
    exists [], []. rewrite !app_nil_r. repeat split; reflexivity.
  - cbn [foldM Plots.outer_body] in H.
    destruct (Plots.plot_key_series key thrs probs labels r0)
      as [e|[p r1]] eqn:Hp; [discriminate|].
    cbn [bind ret] in H.
    destruct (draw_run p tr) as (devs & Hd & Hs & Hc).
    destruct (IH _ _ _ _ (tr ++ devs) H) as (new & evs & -> & Hrun & Hs' & Hc').
    exists (p :: new), (devs ++ evs).
    split; [rewrite <- app_assoc; reflexivity|]. split.
    + cbn [for_fold]. unfold fbind at 1. unfold body at 1.
      unfold fbind at 1. unfold lift. rewrite Hp.
      unfold fbind at 1. rewrite Hd. unfold fret at 1.
      rewrite Hrun, app_assoc. reflexivity.
    + rewrite saved_app, drawn_app, Hs, Hc, Hs', Hc'. split; reflexivity.
Qed.

(** The loop over the keys when a key fails: the plots of the keys before
    it were drawn and saved. *)
Lemma figures_loop_err (ks : list string) :
  forall (st : list Plots.plot_call * option scalar) (e : exn)
         (tr : list Plt.event),
    foldM (Plots.outer_body thrs probs labels) ks st = inl e ->
    exists done evs,
      for_fold ks body (snd st) tr = (tr ++ evs, inl (Raised e)) /\
      saved evs = map file done /\
      map Plots.plot_key done = firstn (length done) ks /\
      (length done < length ks)%nat /\
      (exists r, Plots.plot_key_series (nth (length done) ks EmptyString)
                   thrs probs labels r = inl e) /\
      Forall (fun p => exists r r1,
                Plots.plot_key_series (Plots.plot_key p) thrs probs labels r
                = inr (p, r1)) done.
Proof.
  induction ks as [|key ks IH]; intros [plots0 r0] e tr H; [discriminate|].
  cbn [foldM Plots.outer_body] in H. cbn [snd].
  destruct (Plots.plot_key_series key thrs probs labels r0)
    as [e'|[p r1]] eqn:Hp.
  - injection H as <-. exists [], [].
    split.
    { cbn [for_fold]. unfold fbind at 1. unfold body at 1.
      unfold fbind at 1. unfold lift. rewrite Hp, app_nil_r. reflexivity. }
    split; [reflexivity|]. split; [reflexivity|].
    split; [simpl; lia|]. split; [exists r0; exact Hp | constructor].
  - cbn [bind ret] in H.
    destruct (draw_run p tr) as (devs & Hd & Hs & _).
    destruct (IH _ _ (tr ++ devs) H)
      as (done & evs & Hrun & Hs' & Hk & Hl & Hfail & Hall).
    cbn [snd] in Hrun.
    destruct (plot_key_series_inv _ _ _ _ _ _ _ Hp) as (_ & _ & _ & Hkey & _).
    exists (p :: done), (devs ++ evs).
    split.
    { cbn [for_fold]. unfold fbind at 1. unfold body at 1.
      unfold fbind at 1. unfold lift. rewrite Hp.
      unfold fbind at 1. rewrite Hd. unfold fret at 1.
      rewrite Hrun, app_assoc. reflexivity. }
    split; [rewrite saved_app, Hs, Hs'; reflexivity|].
    split; [simpl; rewrite Hkey, Hk; reflexivity|].
    split; [simpl; lia|].
    split; [exact Hfail|].
    constructor; [|exact Hall]. exists r0, r1. rewrite Hkey. exact Hp.
Qed.

End Sweep_figures.

Section Sweep_files.

Variable probs : list float64.
Variable labels : list Z.
Variable path : string.

(** A run of the sweep that returns: one figure per key. *)
Lemma figures_sweep_ok (plots : list Plots.plot_call) (tr : list Plt.event) :
  Plots.plot_results_above_threshold probs labels = inr plots ->
  exists evs,
    Figures.plot_results_above_threshold probs labels path tr
    = (tr ++ evs, inr tt) /\
    saved evs
    = map (path_join path)
        ["Percentage of Samples.png"; "Accuracy.png"; "Precision.png";
         "Recall.png"; "F1 Score.png"]%string /\
    drawn evs
    = map (fun p => Plt.plot (Plt.Doubles (Plots.plot_x p))
                      (Plt.Scalars (Plots.plot_y p))
                      (Plots.plot_key p ++ " at 0.5 = ")%string
                      (Plots.plot_result p)) plots.
Proof.
  intros H. pose proof (plot_results_inv _ _ _ H) as [Hkeys _].
  unfold Plots.plot_results_above_threshold in H.
  rewrite arange_threshold in H. cbn [bind] in H.
  destruct (foldM (Plots.outer_body threshold probs labels)
              (Plots.keys Plots.metrics) ([], None)) as [e|[ps r']] eqn:Hf;
    [discriminate|].
  cbn [bind ret] in H. injection H as <-.
  destruct (figures_loop_ok probs labels path threshold _ _ _ _ _ tr Hf)
    as (new & evs & Hnew & Hrun & Hs & Hc).
  simpl in Hnew. subst new.
  exists evs. split.
  - unfold Figures.plot_results_above_threshold.
    unfold fbind at 1. unfold lift at 1. rewrite arange_threshold.
    unfold fbind at 1. rewrite Hrun. reflexivity.
  - split; [|exact Hc]. rewrite Hs.
    rewrite <- (map_map Plots.plot_key
                  (fun k => path_join path (k ++ ".png")%string)).
    rewrite Hkeys. reflexivity.
Qed.

End Sweep_files.

(** X11. With its pyplot calls, a run of the sweep that returns draws one
    curve per key, in the order of the keys, and saves five files under
    [path], named after the keys. *)
Theorem X11_sweep_saves_one_file_per_key
  (probs : list float64) (labels : list Z) (path : string)
  (plots : list Plots.plot_call) :
  Plots.plot_results_above_threshold probs labels = inr plots ->
  exists tr,
    Figures.plot_results_above_threshold probs labels path [] = (tr, inr tt) /\
    saved tr
    = map (path_join path)
        ["Percentage of Samples.png"; "Accuracy.png"; "Precision.png";
         "Recall.png"; "F1 Score.png"]%string /\
    drawn tr
    = map (fun p => Plt.plot (Plt.Doubles (Plots.plot_x p))
                      (Plt.Scalars (Plots.plot_y p))
                      (Plots.plot_key p ++ " at 0.5 = ")%string
                      (Plots.plot_result p)) plots.
Proof.
  intros H. destruct (figures_sweep_ok probs labels path plots [] H)
    as (evs & Hrun & Hs & Hc).
  exists evs. repeat split; assumption.
Qed.

Lemma X11_sweep_saves_one_file_per_key_witness :
  exists plots tr,
    Plots.plot_results_above_threshold
      [F64.of_ratio 3 10; F64.of_ratio 2 10] [0; 1] = inr plots /\
    Figures.plot_results_above_threshold
      [F64.of_ratio 3 10; F64.of_ratio 2 10] [0; 1] "out" [] = (tr, inr tt) /\
    saved tr
    = map (path_join "out")
        ["Percentage of Samples.png"; "Accuracy.png"; "Precision.png";
         "Recall.png"; "F1 Score.png"]%string.
Proof.
  destruct (plot_results_valid [F64.of_ratio 3 10; F64.of_ratio 2 10] [0; 1])
    as (plots & Hplots & _); [vm_compute; reflexivity|].
  destruct (X11_sweep_saves_one_file_per_key _ _ "out"%string plots Hplots)
    as (tr & Hrun & Hs & _).
  exists plots, tr. repeat split; assumption.
Defined.

Section Sweep_bad_shapes.

Variable probs : list float64.
Variable labels : list Z.

Lemma percentage_never_fails (thr : float64) (e : exn) :
  probs <> [] ->
  Plots.value_at "Percentage of Samples" probs labels thr <> inl e.
Proof.
  intros Hne. rewrite value_at_percentage.
  assert (Hp : exists p ps, probs = p :: ps).
  { clear -Hne. generalize dependent probs. intros [|p ps] Hne;
      [contradiction | exists p, ps; reflexivity]. }
  destruct Hp as (p & ps & ->). discriminate.
Qed.

Lemma accuracy_fails_on_mismatch (thr : float64) :
  length probs <> length labels ->
  Plots.value_at "Accuracy" probs labels thr = inl ValueError_inconsistent_length.
Proof.
  intros Hne. rewrite value_at_accuracy. unfold Sk.accuracy_score.
  rewrite check_targets_err by (rewrite above_length; congruence).
  reflexivity.
Qed.

End Sweep_bad_shapes.

(** X12. Without any probability the sweep raises ZeroDivisionError before
    drawing anything. With probabilities whose number differs from the
    number of true labels it raises the ValueError of inconsistent lengths
    after having drawn and saved the plot of the first key: the file
    "Percentage of Samples.png" is written and no other. *)
Theorem X12_sweep_on_bad_shapes
  (probs : list float64) (labels : list Z) (path : string) :
  (probs = [] ->
   Figures.plot_results_above_threshold probs labels path []
   = ([], inl (Raised ZeroDivisionError))) /\
  (probs <> [] -> length probs <> length labels ->
   exists tr,
     Figures.plot_results_above_threshold probs labels path []
     = (tr, inl (Raised ValueError_inconsistent_length)) /\
     saved tr = [path_join path "Percentage of Samples.png"]).
Proof.
  split.
  - intros ->. vm_compute. reflexivity.
  - intros Hne Hlen.
    destruct (foldM (Plots.outer_body threshold probs labels)
                (Plots.keys Plots.metrics) ([], None)) as [e|[ps r']] eqn:Hf.
    + destruct (figures_loop_err probs labels path threshold _ _ _ [] Hf)
        as (done & evs & Hrun & Hs & Hk & Hl & (r & Hfail) & Hall).
      cbn [snd] in Hrun.
      destruct (plot_key_series_err _ _ _ _ _ Hfail) as [thr Hthr].
      destruct done as [|p0 [|p1 rest]].
      * exfalso. cbn [length nth Plots.keys Plots.metrics map fst] in Hthr.
        apply (percentage_never_fails probs labels thr e Hne Hthr).
      * cbn [length nth Plots.keys Plots.metrics map fst] in Hthr.
        rewrite accuracy_fails_on_mismatch in Hthr by exact Hlen.
        injection Hthr as <-.
        exists ([] ++ evs). split.
        { unfold Figures.plot_results_above_threshold.
          unfold fbind at 1. unfold lift at 1. rewrite arange_threshold.
          unfold fbind at 1. rewrite Hrun. reflexivity. }
        rewrite app_nil_l, Hs. cbn [map]. injection Hk as Hk. rewrite Hk.
        reflexivity.
      * exfalso. inversion Hall as [|? ? _ Hall']; subst.
        inversion Hall' as [|? ? (r1 & r2 & Hp1) _]; subst.
        injection Hk as _ Hk1 _. rewrite Hk1 in Hp1.
        destruct (plot_key_series_inv _ _ _ _ _ _ _ Hp1) as (arr & Hsw & _).
        destruct (sweep_values _ _ _ _ _ _ Hsw) as (_ & Hval & _).
        specialize (Hval O ltac:(lia)).
        rewrite accuracy_fails_on_mismatch in Hval by exact Hlen. discriminate.
    + exfalso.
      destruct (outer_loop_inv _ _ _ _ _ _ _ _ Hf) as (new & _ & Hkeys & Hall).
      destruct new as [|p0 [|p1 rest]]; try discriminate Hkeys.
      inversion Hall as [|? ? _ Hall']; subst.
      inversion Hall' as [|? ? (r1 & r2 & Hp1) _]; subst.
      injection Hkeys as _ Hk1 _. rewrite Hk1 in Hp1.
      destruct (plot_key_series_inv _ _ _ _ _ _ _ Hp1) as (arr & Hsw & _).
      destruct (sweep_values _ _ _ _ _ _ Hsw) as (_ & Hval & _).
      specialize (Hval O ltac:(lia)).
      rewrite accuracy_fails_on_mismatch in Hval by exact Hlen. discriminate.
Qed.

Lemma X12_sweep_on_bad_shapes_witness :
  exists tr,
    Figures.plot_results_above_threshold
      [F64.of_ratio 3 10; F64.of_ratio 2 10] [0; 1; 1] "out" []
    = (tr, inl (Raised ValueError_inconsistent_length)) /\
    saved tr = [path_join "out" "Percentage of Samples.png"].
Proof.
  apply (proj2 (X12_sweep_on_bad_shapes
                  [F64.of_ratio 3 10; F64.of_ratio 2 10] [0; 1; 1] "out")).
  - discriminate.
  - simpl. lia.
Defined.

(** ** [validation_plots] *)

Section Validation_plots.

Variable roc_curve :
  list Z -> list float64 -> res (list scalar * list scalar * list float64).
Variable precision_recall_curve :
  list Z -> list float64 -> res (list scalar * list scalar * list float64).
Variable average_precision_score : list Z -> list float64 -> res scalar.

Variable probs : list float64.
Variable labels : list Z.
Variable path : string.

Lemma plot_roc_curve_ok (tr : list Plt.event)
  (c : list scalar * list scalar * list float64) (auc : scalar) :
  roc_curve labels probs = inr c ->
  Sk.roc_auc_score labels probs = inr auc ->
  exists evs,
    Figures.plot_roc_curve roc_curve probs labels path tr = (tr ++ evs, inr tt) /\
    saved evs = [path_join path "roc_curve.png"].
Proof.
  intros Hc Hauc. destruct c as [[fpr tpr] ths]. eexists. split.
  - unfold Figures.plot_roc_curve.
    unfold fbind at 1. unfold lift at 1. rewrite Hc.
    unfold fbind at 1. unfold lift at 1. rewrite Hauc.
    unfold fbind, emit. rewrite <- !app_assoc. reflexivity.
  - reflexivity.
Qed.

(** Without two classes among the true labels the ROC plot raises, whatever
    [roc_curve] does, and leaves the trace as it was. *)
Lemma plot_roc_curve_err (tr : list Plt.event) (e : exn) :
  Sk.roc_auc_score labels probs = inl e ->
  exists e', Figures.plot_roc_curve roc_curve probs labels path tr = (tr, inl e').
Proof.
  intros Hauc. unfold Figures.plot_roc_curve.
  unfold fbind at 1. unfold lift at 1.
  destruct (roc_curve labels probs) as [e1|[[fpr tpr] ths]].
  - eexists. reflexivity.
  - unfold fbind at 1. unfold lift at 1. rewrite Hauc. eexists. reflexivity.
Qed.

Lemma plot_pre_rec_curve_ok (tr : list Plt.event)
  (c : list scalar * list scalar * list float64) (ap : scalar) :
  precision_recall_curve labels probs = inr c ->
  average_precision_score labels probs = inr ap ->
  exists evs,
    Figures.plot_pre_rec_curve precision_recall_curve average_precision_score
      probs labels path tr = (tr ++ evs, inr tt) /\
    saved evs = [path_join path "precision_recall_curve.png"].
Proof.
  intros Hc Hap. destruct c as [[precision recall] ths]. eexists. split.
  - unfold Figures.plot_pre_rec_curve.
    unfold fbind at 1. unfold lift at 1. rewrite Hc.
    unfold fbind at 1. unfold lift at 1. rewrite Hap.
    unfold fbind, emit. rewrite <- !app_assoc. reflexivity.
  - reflexivity.
Qed.

End Validation_plots.

Section File_names.

Lemma string_app_assoc (a b c : string) :
  ((a ++ b) ++ c = a ++ (b ++ c))%string.
Proof.
  induction a as [|ch a IH]; simpl; [reflexivity | rewrite IH; reflexivity].
Qed.

Lemma string_app_inj (a b c : string) : (a ++ b = a ++ c)%string -> b = c.
Proof.
  induction a as [|ch a IH]; simpl; intros H; [exact H|].
  injection H as H. apply IH, H.
Qed.

(** Joining a directory with a relative name prepends one fixed prefix. *)
Lemma path_join_relative (a : string) :
  exists pre, forall b, starts_with_slash b = false ->
                        path_join a b = (pre ++ b)%string.
Proof.
  unfold path_join.
  destruct ((match a with EmptyString => true | _ => false end)
            || ends_with_slash a) eqn:E.
  - exists a. intros b Hb. rewrite Hb. reflexivity.
  - exists (a ++ "/")%string. intros b Hb. rewrite Hb.
    rewrite string_app_assoc. reflexivity.
Qed.

Lemma NoDup_map_injective {X Y} (g : X -> Y) (l : list X) :
  (forall x y, g x = g y -> x = y) -> NoDup l -> NoDup (map g l).
Proof.
  intros Hinj H. induction H as [|x l Hx H IH]; simpl; constructor.
  - intros Hin. apply in_map_iff in Hin. destruct Hin as (y & Hy & Hin).
    apply Hinj in Hy. subst y. exact (Hx Hin).
  - exact IH.
Qed.

Lemma file_names_distinct (path : string) :
  NoDup (map (path_join path)
           ["confusion_matrix.png"; "roc_curve.png";
            "precision_recall_curve.png"; "Percentage of Samples.png";
            "Accuracy.png"; "Precision.png"; "Recall.png";
            "F1 Score.png"]%string).
Proof.
  destruct (path_join_relative path) as [pre Hpre].
  rewrite (map_ext_in _ (fun b => (pre ++ b)%string)).
  - apply NoDup_map_injective; [intros x y; apply string_app_inj|].
    repeat (constructor; [simpl; intuition discriminate|]). constructor.
  - intros b Hb. apply Hpre.
    simpl in Hb.
    repeat (destruct Hb as [<-|Hb]; [reflexivity|]). contradiction.
Qed.

End File_names.

(** The confusion-matrix plot on non-empty arrays of one length: it
    returns, and one file is saved. *)
Lemma confusion_matrix_plot_files (preds labels : list Z) (path : string) :
  length preds = length labels -> labels <> [] ->
  exists tr,
    Figures.plot_confusion_matrix preds labels ["No Pain"; "Pain"]%string path []
    = (tr, inr tt) /\
    saved tr = [path_join path "confusion_matrix.png"].
Proof.
  intros Hlen Hne.
  destruct (plot_confusion_matrix_run preds labels ["No Pain"; "Pain"]%string
              path [] Hlen Hne) as (x & rest & _ & Hcm).
  eexists. split; [exact Hcm|].
  rewrite !saved_app.
  match goal with
  | |- context [flat_map ?F ?R] =>
      assert (Hgrid : saved (flat_map F R) = [] /\ texts (flat_map F R) = flat_map F R)
        by (apply only_texts, grid_all_texts; intros i j;
            eexists _, _, _, _; reflexivity)
  end.
  destruct Hgrid as [-> _]. reflexivity.
Qed.

(** X13. When the true labels hold a single class (and there are as many
    predicted labels), [validation_plots] saves confusion_matrix.png and
    then raises in [plot_roc_curve]: no other file is written, whatever the
    curve functions of the library do. *)
Theorem X13_validation_plots_on_one_class
  (roc_curve precision_recall_curve :
     list Z -> list float64 -> res (list scalar * list scalar * list float64))
  (average_precision_score : list Z -> list float64 -> res scalar)
  (preds : list Z) (probs : list float64) (labels : list Z) (path : string)
  (c : Z) :
  length preds = length labels -> labels <> [] -> Forall (eq c) labels ->
  exists tr e,
    Figures.validation_plots roc_curve precision_recall_curve
      average_precision_score preds probs labels path [] = (tr, inl e) /\
    saved tr = [path_join path "confusion_matrix.png"].
Proof.
  intros Hlen Hne Hall.
  destruct (confusion_matrix_plot_files preds labels path Hlen Hne)
    as (tr1 & Hcm & Hs1).
  destruct (roc_auc_score_one_class labels probs c Hne Hall) as [[e He] _].
  destruct (plot_roc_curve_err roc_curve probs labels path tr1 e He)
    as [e' Hroc].
  exists tr1, e'. split; [|exact Hs1].
  unfold Figures.validation_plots.
  unfold fbind at 1. rewrite Hcm. cbv beta iota.
  unfold fbind at 1. rewrite Hroc. reflexivity.
Qed.

Lemma X13_validation_plots_on_one_class_witness :
  exists tr e,
    Figures.validation_plots
      (fun _ _ => inr ([], [], [])) (fun _ _ => inr ([], [], []))
      (fun _ _ => inr scalar_one)
      [0; 1] [F64.of_ratio 9 10; F64.of_ratio 8 10] [1; 1] "out" []
    = (tr, inl e) /\
    saved tr = [path_join "out" "confusion_matrix.png"].
Proof.
  apply (X13_validation_plots_on_one_class
           (fun _ _ => inr ([], [], [])) (fun _ _ => inr ([], [], []))
           (fun _ _ => inr scalar_one)
           [0; 1] [F64.of_ratio 9 10; F64.of_ratio 8 10] [1; 1] "out" 1).
  - reflexivity.
  - discriminate.
  - repeat constructor.
Defined.

(** X14. On predicted labels as many as the true labels, a valid input of
    the sweep whose true labels hold both classes, and curve functions of
    the library that return, [validation_plots] returns after saving eight
    files under [path], in this order and all distinct: the confusion
    matrix, the ROC curve, the precision-recall curve and one file per key
    of the sweep. *)
Theorem X14_validation_plots_saves_eight_files
  (roc_curve precision_recall_curve :
     list Z -> list float64 -> res (list scalar * list scalar * list float64))
  (average_precision_score : list Z -> list float64 -> res scalar)
  (preds : list Z) (probs : list float64) (labels : list Z) (path : string)
  (rc prc : list scalar * list scalar * list float64) (ap : scalar) :
  length preds = length labels ->
  valid_sweep_input probs labels = true ->
  In 0 labels -> In 1 labels ->
  roc_curve labels probs = inr rc ->
  precision_recall_curve labels probs = inr prc ->
  average_precision_score labels probs = inr ap ->
  exists tr,
    Figures.validation_plots roc_curve precision_recall_curve
      average_precision_score preds probs labels path [] = (tr, inr tt) /\
    saved tr
    = map (path_join path)
        ["confusion_matrix.png"; "roc_curve.png";
         "precision_recall_curve.png"; "Percentage of Samples.png";
         "Accuracy.png"; "Precision.png"; "Recall.png";
         "F1 Score.png"]%string /\
    NoDup (saved tr).
Proof.
  intros Hlen Hv H0 H1 Hrc Hprc Hap.
  destruct (valid_sweep_input_inv _ _ Hv) as (Hlp & Hn & Hl & Hp).
  assert (Hne : labels <> []) by (intros ->; simpl in Hn; lia).
  destruct (confusion_matrix_plot_files preds labels path Hlen Hne)
    as (tr1 & Hcm & Hs1).
  destruct (roc_auc_score_two_classes labels probs Hl H0 H1 Hlp Hp)
    as [auc Hauc].
  destruct (plot_roc_curve_ok roc_curve probs labels path tr1 rc auc Hrc Hauc)
    as (ev2 & Hroc & Hs2).
  destruct (plot_pre_rec_curve_ok precision_recall_curve average_precision_score
              probs labels path (tr1 ++ ev2) prc ap Hprc Hap)
    as (ev3 & Hpr & Hs3).
  destruct (plot_results_valid probs labels Hv) as (plots & Hplots & _).
  destruct (figures_sweep_ok probs labels path plots ((tr1 ++ ev2) ++ ev3) Hplots)
    as (ev4 & Hsw & Hs4 & _).
  assert (Hsaved : saved (((tr1 ++ ev2) ++ ev3) ++ ev4)
    = map (path_join path)
        ["confusion_matrix.png"; "roc_curve.png";
         "precision_recall_curve.png"; "Percentage of Samples.png";
         "Accuracy.png"; "Precision.png"; "Recall.png";
         "F1 Score.png"]%string).
  { rewrite !saved_app, Hs1, Hs2, Hs3, Hs4. reflexivity. }
  exists (((tr1 ++ ev2) ++ ev3) ++ ev4). split.
  - unfold Figures.validation_plots.
    unfold fbind at 1. rewrite Hcm. cbv beta iota.
    unfold fbind at 1. rewrite Hroc. cbv beta iota.
    unfold fbind at 1. rewrite Hpr. cbv beta iota. exact Hsw.
  - split; [exact Hsaved|]. rewrite Hsaved. apply file_names_distinct.
Qed.

Lemma X14_validation_plots_saves_eight_files_witness :
  exists tr,
    Figures.validation_plots
      (fun _ _ => inr ([], [], [])) (fun _ _ => inr ([], [], []))
      (fun _ _ => inr scalar_one)
      [1; 0] [F64.of_ratio 9 10; F64.of_ratio 1 10] [1; 0] "out" []
    = (tr, inr tt) /\
    saved tr
    = map (path_join "out")
        ["confusion_matrix.png"; "roc_curve.png";
         "precision_recall_curve.png"; "Percentage of Samples.png";
         "Accuracy.png"; "Precision.png"; "Recall.png";
         "F1 Score.png"]%string /\
    NoDup (saved tr).
Proof.
  apply (X14_validation_plots_saves_eight_files
           (fun _ _ => inr ([], [], [])) (fun _ _ => inr ([], [], []))
           (fun _ _ => inr scalar_one)
           [1; 0] [F64.of_ratio 9 10; F64.of_ratio 1 10] [1; 0] "out"
           ([], [], []) ([], [], []) scalar_one).
  - reflexivity.
  - vm_compute. reflexivity.
  - simpl. auto.
  - simpl. auto.
  - reflexivity.
  - reflexivity.
  - reflexivity.
Defined.

(** ** When [validation_metrics] returns *)

Section Report_exists.

Lemma roc_auc_score_returns (labels : list Z) (probs : list float64) :
  (exists auc, Sk.roc_auc_score labels probs = inr auc) <->
  length (Np.unique labels) = 2%nat /\ length probs = length labels /\
  forallb F64.is_finite probs = true.
Proof.
  unfold Sk.roc_auc_score. split.
  - intros [auc H].
    destruct (Sk.check_array_labels labels) as [e|[]]; [discriminate|].
    cbn [bind] in H. unfold Sk.check_array_scores in H.
    destruct probs as [|p ps] eqn:Ep; [discriminate|]. rewrite <- Ep in *.
    destruct (forallb F64.is_finite probs) eqn:Hfin; [|discriminate].
    cbn [bind ret] in H.
    destruct (Sk.type_of_target labels); [|discriminate].
    unfold Sk._binary_roc_auc_score in H.
    destruct (Np.unique labels) as [|a [|b [|c rest]]]; try discriminate.
    split; [reflexivity|]. split; [|reflexivity].
    destruct (Nat.eq_dec (length labels) (length probs)) as [E|E]; [congruence|].
    rewrite check_consistent_length_err in H by exact E. discriminate.
  - intros (Hu & Hlen & Hfin).
    rewrite type_of_target_binary by lia.
    assert (Hl : Sk.check_array_labels labels = inr tt).
    { destruct labels as [|l0 ls]; [discriminate Hu | reflexivity]. }
    assert (Hp : Sk.check_array_scores probs = inr tt).
    { unfold Sk.check_array_scores. rewrite Hfin.
      destruct probs as [|p ps]; [|reflexivity].
      destruct labels; [discriminate Hu | discriminate Hlen]. }
    rewrite Hl, Hp. cbn [bind]. unfold Sk._binary_roc_auc_score.
    destruct (Np.unique labels) as [|a [|b [|c rest]]]; try discriminate.
    rewrite check_consistent_length_ok by congruence.
    eexists. reflexivity.
Qed.

End Report_exists.

(** X15. [validation_metrics] returns a report exactly when the three
    arrays have one length, the predicted and true labels together hold
    exactly two distinct values, the true labels alone hold both of them,
    and every probability is finite. Neither the values of the labels nor
    the range of the probabilities matter. *)
Theorem X15_report_returned_exactly_when
  (preds : list Z) (probs : list float64) (labels : list Z) :
  (exists report, Validate.validation_metrics preds probs labels = inr report)
  <->
  length preds = length labels /\ length probs = length labels /\
  length (Sk.unique_labels labels preds) = 2%nat /\
  length (Np.unique labels) = 2%nat /\
  forallb F64.is_finite probs = true.
Proof.
  split.
  - intros [report H].
    destruct (validation_metrics_inv _ _ _ _ H)
      as (tn & fp & fn & tp & auc & Hc & Hauc & _).
    destruct (confusion_counts_inv _ _ _ _ _ _ Hc) as (Hlen & c0 & c1 & Hu & _).
    destruct (proj1 (roc_auc_score_returns labels probs)
                (ex_intro _ auc Hauc)) as (H2 & Hlp & Hfin).
    rewrite Hu. repeat split; assumption.
  - intros (Hlen & Hlp & Hu & H2 & Hfin).
    destruct (Sk.unique_labels labels preds) as [|c0 [|c1 [|c2 rest]]] eqn:Eu;
      try discriminate.
    destruct (proj2 (roc_auc_score_returns labels probs)
                (conj H2 (conj Hlp Hfin))) as [auc Hauc].
    unfold Validate.validation_metrics.
    rewrite (confusion_counts_two preds labels c0 c1 Hlen Eu). cbn [bind].
    rewrite Hauc. eexists. reflexivity.
Qed.

Lemma X15_report_returned_exactly_when_witness :
  exists report,
    Validate.validation_metrics [2; 7] [F64.of_Z 5; F64.of_Z (-3)] [7; 2]
    = inr report.
Proof.
  apply (proj2 (X15_report_returned_exactly_when
                  [2; 7] [F64.of_Z 5; F64.of_Z (-3)] [7; 2])).
  repeat split; vm_compute; reflexivity.
Defined.
